(** * PYQ vault (app.py): record store, exam-year parser, path normalisers,
      listing, upload and deletion handlers.

    The Flask application is embedded shallowly.  Python [str] values are
    lists of Unicode code points, the JSON collection is a list of records,
    the upload folder is a finite map from relative POSIX paths to file
    contents, and every handler is a function from the world before the
    request to the world after it together with the response.  Each world
    carries the log of the storage operations performed so far, so that
    statements such as "before any disk I/O" or "persisted once" are
    statements about that log.

    Conventions.  Only the exceptions the source catches are modelled
    (int() raising ValueError, unlink raising inside try blocks); the other
    storage calls (mkdir, read_text, write_text, FileStorage.save) are
    taken to succeed, as the source itself assumes.  Library functions whose
    tables are too large to spell out (str.lower, werkzeug's
    secure_filename) and the behaviour of the environment (whether an unlink
    fails, the clock) are fields of the class [Runtime]. *)

From Stdlib Require Import ZArith List Lia Bool Ascii String.
From Stdlib Require Import Sorting.Sorted Sorting.Permutation.
From stdpp Require Import base list gmap.

Open Scope Z_scope.

(* ===================================================================== *)
(** ** Python text primitives *)
(* ===================================================================== *)

(** A Python [str] is a sequence of code points. *)
Abbreviation char := Z (only parsing).
Abbreviation str := (list Z) (only parsing).

(** ASCII literals: [lit "2024-25"]. *)
Fixpoint lit (s : string) : str :=
  match s with
  | EmptyString => []
  | String a r => Z.of_N (N_of_ascii a) :: lit r
  end.

Definition HYPHEN : char := 45.      (* "-"  *)
Definition EN_DASH : char := 8211.   (* U+2013 *)
Definition EM_DASH : char := 8212.   (* U+2014 *)
Definition SPACE : char := 32.
Definition SLASH : char := 47.       (* "/"  *)
Definition BACKSLASH : char := 92.
Definition DOT : char := 46.
Definition UNDERSCORE : char := 95.
Definition PLUS : char := 43.

Definition str_eqb (a b : str) : bool := bool_decide (a = b).

(** [str.isspace] for one code point (the set str.strip() removes). *)
Definition py_isspace (c : char) : bool :=
  ((9 <=? c) && (c <=? 13)) || ((28 <=? c) && (c <=? 32))
  || (c =? 133) || (c =? 160) || (c =? 5760)
  || ((8192 <=? c) && (c <=? 8202))
  || (c =? 8232) || (c =? 8233) || (c =? 8239) || (c =? 8287) || (c =? 12288).

(** Code points of the digit zero of every decimal-digit run (Unicode 14.0,
    the table of CPython 3.11); each run is ten consecutive code points. *)
Definition decimal_zeros : list Z :=
  [ 48; 1632; 1776; 1984; 2406; 2534; 2662; 2790; 2918; 3046; 3174; 3302;
    3430; 3558; 3664; 3792; 3872; 4160; 4240; 6112; 6160; 6470; 6608; 6784;
    6800; 6992; 7088; 7232; 7248; 42528; 43216; 43264; 43472; 43504; 43600;
    44016; 65296; 66720; 68912; 69734; 69872; 69942; 70096; 70384; 70736;
    70864; 71248; 71360; 71472; 71904; 72016; 72784; 73040; 73120; 92768;
    92864; 93008; 120782; 120792; 120802; 120812; 120822; 123200; 123632;
    125264; 130032 ].

(** [unicodedata.decimal]: the value of a decimal digit, used both by the
    regex class \d and by int(). *)
Definition py_decimal (c : char) : option Z :=
  match List.find (fun z => (z <=? c) && (c <? z + 10)) decimal_zeros with
  | Some z => Some (c - z)
  | None => None
  end.

Definition is_decimal (c : char) : bool :=
  match py_decimal c with Some _ => true | None => false end.

Fixpoint drop_while (p : char -> bool) (s : str) : str :=
  match s with
  | [] => []
  | c :: r => if p c then drop_while p r else s
  end.

(** [s.lstrip(chars)], [s.rstrip(chars)], [s.strip(chars)] for a set of
    characters given as a predicate. *)
Definition lstrip_by (p : char -> bool) (s : str) : str := drop_while p s.
Definition rstrip_by (p : char -> bool) (s : str) : str :=
  rev (drop_while p (rev s)).
Definition strip_by (p : char -> bool) (s : str) : str :=
  rstrip_by p (lstrip_by p s).

(** [s.strip()] *)
Definition strip (s : str) : str := strip_by py_isspace s.

(** [s.startswith(old)] *)
Fixpoint starts_with (old s : str) : bool :=
  match old, s with
  | [], _ => true
  | _ :: _, [] => false
  | a :: old', c :: s' => (a =? c) && starts_with old' s'
  end.

(** [s.replace(old, new)]: occurrences are found left to right and do not
    overlap.  [skip] counts the characters of a matched occurrence that are
    still to be consumed. *)
Fixpoint replace_from (old new : str) (skip : nat) (s : str) : str :=
  match s with
  | [] => []
  | c :: s' =>
      match skip with
      | S k => replace_from old new k s'
      | O =>
          if starts_with old s
          then new ++ replace_from old new (pred (length old)) s'
          else c :: replace_from old new O s'
      end
  end.

Definition replace (old new s : str) : str :=
  match old with
  | [] => new ++ flat_map (fun c => c :: new) s
  | _ :: _ => replace_from old new O s
  end.

(** The part after the last "." : [s.rsplit(".", 1)[1]], defined when "."
    occurs in [s]. *)
Fixpoint after_last (d : char) (s : str) : option str :=
  match s with
  | [] => None
  | c :: r =>
      match after_last d r with
      | Some t => Some t
      | None => if c =? d then Some r else None
      end
  end.

(** Comparison of two strings: lexicographic on code points. *)
Fixpoint str_compare (a b : str) : comparison :=
  match a, b with
  | [], [] => Eq
  | [], _ :: _ => Lt
  | _ :: _, [] => Gt
  | x :: a', y :: b' =>
      match x ?= y with
      | Eq => str_compare a' b'
      | o => o
      end
  end.

(** ASCII case folding, the restriction of str.lower to ASCII text. *)
Definition ascii_lower (c : char) : char :=
  if (65 <=? c) && (c <=? 90) then c + 32 else c.

Definition is_ascii (c : char) : Prop := 0 <= c < 128.

(** *** int() and str() on integers *)

(** The whitespace int() tolerates around the number: that of str.strip()
    except U+001C..U+001F. *)
Definition int_space (c : char) : bool :=
  py_isspace c && negb ((28 <=? c) && (c <=? 31)).

(** Digits with single underscores between them.  [prev] tells whether the
    previous character was a digit. *)
Fixpoint int_digits (acc : Z) (prev : bool) (s : str) : option Z :=
  match s with
  | [] => if prev then Some acc else None
  | c :: r =>
      match py_decimal c with
      | Some v => int_digits (acc * 10 + v) true r
      | None =>
          if (c =? UNDERSCORE) && prev then int_digits acc false r else None
      end
  end.

(** [int(s)] in base ten; [None] stands for ValueError. *)
Definition py_int (s : str) : option Z :=
  match strip_by int_space s with
  | c :: r =>
      if c =? PLUS then int_digits 0 false r
      else if c =? HYPHEN then Z.opp <$> int_digits 0 false r
      else int_digits 0 false (c :: r)
  | [] => None
  end.

(** Decimal digits of a non-negative integer, most significant first. *)
Fixpoint digits_of (fuel : nat) (n : Z) (acc : str) : str :=
  match fuel with
  | O => acc
  | S f =>
      let acc' := (48 + n mod 10) :: acc in
      if n <? 10 then acc' else digits_of f (n / 10) acc'
  end.

(** [str(n)] *)
Definition py_str (n : Z) : str :=
  if n <? 0 then HYPHEN :: digits_of (S (Z.to_nat (Z.log2 (- n)))) (- n) []
  else digits_of (S (Z.to_nat (Z.log2 n))) n [].

(* ===================================================================== *)
(** ** Regular expressions (the fragment of [re] the source uses) *)
(* ===================================================================== *)

Inductive regex : Type :=
| Empty : regex                       (* matches nothing *)
| Eps : regex                         (* matches the empty string *)
| Chr : char -> regex                 (* a literal character *)
| Digit : regex                       (* \d *)
| Seq : regex -> regex -> regex
| Alt : regex -> regex -> regex.      (* r1|r2 *)

(** r{n} *)
Fixpoint Rep (n : nat) (r : regex) : regex :=
  match n with
  | O => Eps
  | S k => Seq r (Rep k r)
  end.

Fixpoint nullable (r : regex) : bool :=
  match r with
  | Empty => false
  | Eps => true
  | Chr _ => false
  | Digit => false
  | Seq a b => nullable a && nullable b
  | Alt a b => nullable a || nullable b
  end.

Fixpoint deriv (c : char) (r : regex) : regex :=
  match r with
  | Empty => Empty
  | Eps => Empty
  | Chr d => if c =? d then Eps else Empty
  | Digit => if is_decimal c then Eps else Empty
  | Seq a b =>
      if nullable a then Alt (Seq (deriv c a) b) (deriv c b)
      else Seq (deriv c a) b
  | Alt a b => Alt (deriv c a) (deriv c b)
  end.

(** [re.fullmatch(r, s)] is not None *)
Fixpoint re_fullmatch (r : regex) (s : str) : bool :=
  match s with
  | [] => nullable r
  | c :: s' => re_fullmatch (deriv c r) s'
  end.

(* ===================================================================== *)
(** ** Exceptions *)
(* ===================================================================== *)

Inductive exn : Type := ValueError.

(** The outcome of an expression that may raise. *)
Inductive result (A : Type) : Type :=
| Ok (a : A)
| Raise (e : exn).
Arguments Ok {A} a.
Arguments Raise {A} e.

#[global] Instance result_ret : MRet result := fun A a => Ok a.
#[global] Instance result_bind : MBind result :=
  fun A B f m => match m with Ok a => f a | Raise e => Raise e end.

(** [int(s)] as an expression that raises ValueError. *)
Definition int_ (s : str) : result Z :=
  match py_int s with
  | Some z => Ok z
  | None => Raise ValueError
  end.

(* ===================================================================== *)
(** ** The record store *)
(* ===================================================================== *)

Abbreviation bytes := (list Z) (only parsing).

(** One entry of papers.json.  [stored_path] is read with [dict.get], so a
    missing or non-string value is [None]. *)
Module Paper.
Record t : Type := mk {
id : Z;
year : Z;
semester : Z;
subject : str;
exam_type : str;
exam_year : Z;
academic_year : option str;
original_filename : str;
stored_path : option str;
uploaded_at : str
}.

Definition with_stored_path (p : t) (sp : str) : t :=
mk (id p) (year p) (semester p) (subject p) (exam_type p) (exam_year p)
   (academic_year p) (original_filename p) (Some sp) (uploaded_at p).
End Paper.

#[global] Instance paper_eq_dec : EqDecision Paper.t.
Proof. solve_decision. Defined.

(** [max(xs, default=d)] *)
Definition py_max (xs : list Z) (d : Z) : Z :=
  match xs with
  | [] => d
  | x :: r => fold_left Z.max r x
  end.

Definition next_id (data : list Paper.t) : Z :=
  py_max (map Paper.id data) 0 + 1.

(* ===================================================================== *)
(** ** parse_exam_year *)
(* ===================================================================== *)

(** r"(\d{4})" *)
Definition re_year : regex := Rep 4 Digit.

(** r"(\d{4})-(\d{2}|\d{4})" *)
Definition re_range : regex :=
  Seq (Rep 4 Digit) (Seq (Chr HYPHEN) (Alt (Rep 2 Digit) (Rep 4 Digit))).

(** The first line of the function: strip, dashes to hyphens, spaces out. *)
Definition clean_exam_year (value : option str) : str :=
  replace [SPACE] []
    (replace [EM_DASH] [HYPHEN]
       (replace [EN_DASH] [HYPHEN] (strip (default [] value)))).

(** Both patterns have fixed-width groups: group 1 is the first four
    characters and group 2 what follows the hyphen. *)
Definition parse_exam_year (value : option str)
  : result (option Z * option str) :=
  let s := clean_exam_year value in
  if re_fullmatch re_year s then
    y ← int_ (take 4 s);
    Ok (Some y, None)
  else if re_fullmatch re_range s then
    start ← int_ (take 4 s);
    let end_part := drop 5 s in
    end_ ← (if (length end_part =? 4)%nat then int_ end_part
            else e ← int_ end_part;
                 int_ (py_str (start / 100 * 100 + e)));
    let end_ := if end_ <? start then start + 1 else end_ in
    Ok (Some start, Some (py_str start ++ [HYPHEN] ++ py_str end_))
  else Ok (None, None).

(* ===================================================================== *)
(** ** The two path normalisers *)
(* ===================================================================== *)

(** The expression of normalize_data_paths:
    sp.replace("\\\\", "/").replace("\\", "/") *)
Definition heal_path (sp : str) : str :=
  replace [BACKSLASH] [SLASH] (replace [BACKSLASH; BACKSLASH] [SLASH] sp).

(** The expression of serve_file:
    relpath.replace("\\", "/").replace("//", "/").lstrip("/") *)
Definition serve_path (relpath : str) : str :=
  lstrip_by (fun c => c =? SLASH)
    (replace [SLASH; SLASH] [SLASH] (replace [BACKSLASH] [SLASH] relpath)).

(* ===================================================================== *)
(** ** Runtime: library functions and the environment *)
(* ===================================================================== *)

Class Runtime : Type := {
  (** str.lower *)
  str_lower : str -> str;
  str_lower_ascii :
    forall s, Forall is_ascii s -> str_lower s = map ascii_lower s;
  (** werkzeug.utils.secure_filename *)
  secure_filename : str -> str;
  (** Whether Path.unlink raises for this path when it is the [t]-th storage
      operation of the process, and the text of the exception. *)
  unlink_error : nat -> str -> option str;
  (** datetime.now().isoformat(timespec="seconds") at that moment *)
  now_isoformat : nat -> str
}.

(* ===================================================================== *)
(** ** Worlds *)
(* ===================================================================== *)

Inductive event : Type :=
| EvMkdir (dir : str)
| EvLoad
| EvSave (data : list Paper.t)
| EvExists (path : str)
| EvUnlink (path : str) (ok : bool)
| EvWrite (path : str).

(** [store] is the content of papers.json, [disk] the files below the
    upload folder keyed by their POSIX path relative to it, [log] the
    storage operations performed so far, oldest first. *)
Record World : Type := mkWorld {
  store : list Paper.t;
  disk : gmap str bytes;
  log : list event
}.

Definition is_save (e : event) : bool :=
  match e with EvSave _ => true | _ => false end.

(** Number of times the store was persisted. *)
Definition saves (l : list event) : nat := length (List.filter is_save l).

Inductive category : Type := success | warning | danger.

Inductive warning_text : Type :=
| SkippedUnsupported (filename : str)
| CouldntRemoveOld (safe_name : str) (e : str).

Inductive message : Type :=
| MsgNumbers            (* "Year/semester must be numbers." *)
| MsgValidYear          (* "Please enter a valid year like 2024 or 2024-25." *)
| MsgChooseFile         (* "Please choose at least one file." *)
| MsgFillFields         (* "Please fill all fields correctly." *)
| MsgUploaded (n : Z)   (* "Uploaded {n} file(s) successfully." *)
| MsgWarnings (ws : list warning_text)   (* " ".join(warnings) *)
| MsgSkipped (n : Z)    (* "Skipped {n} file(s)." *)
| MsgNotFound           (* "Paper not found." *)
| MsgCouldntRemove (e : str)  (* "Couldn't remove file from disk: {e}" *)
| MsgDeleted.           (* "Paper deleted." *)

Definition flash : Type := message * category.

(** What the listing hands to the template papers.html. *)
Record PapersContext : Type := mkCtx {
  ctx_year : option Z;          (* year or "" *)
  ctx_semester : option Z;      (* semester or "" *)
  ctx_subject : str;
  ctx_exam_type : str;
  papers : list Paper.t;
  subjects_all : list str
}.

Inductive target : Type :=
| ToUpload
| ToAdminLogin
| ToPapersList
| ToPapersListOf (year semester : Z) (subject : str)
| ToUrl (u : str).

Inductive response : Type :=
| Redirect (to : target) (flashes : list flash)
| RenderUpload
| RenderPapers (ctx : PapersContext)
| SendFromDirectory (relpath : str)
| Healed (changed : Z)          (* the start-up pass, no HTTP response *)
| ServerError (e : exn).

(* ===================================================================== *)
(** ** Utilities of the handlers *)
(* ===================================================================== *)

(** [x or d] for an optional string: [None] and the empty string are
    falsy. *)
Definition py_or (x : option str) (d : str) : str :=
  match x with
  | Some (c :: r) => c :: r
  | _ => d
  end.

Definition nonempty (s : str) : bool :=
  match s with [] => false | _ :: _ => true end.

Definition ALLOWED_EXTENSIONS : list str :=
  [lit "pdf"; lit "jpg"; lit "jpeg"; lit "png"].

Definition allowed_file `{Runtime} (filename : str) : bool :=
  match after_last DOT filename with
  | Some ext => bool_decide (str_lower ext ∈ ALLOWED_EXTENSIONS)
  | None => false
  end.

(** [load_data()] and [save_data(data)] on a world. *)
Definition load_data (w : World) : World * list Paper.t :=
  (mkWorld (store w) (disk w) (log w ++ [EvLoad]), store w).

Definition save_data (data : list Paper.t) (w : World) : World :=
  mkWorld data (disk w) (log w ++ [EvSave data]).

(** Joining a directory and a name below the upload folder, as the
    relative POSIX path of the result.  (pathlib also drops empty and "."
    components of a name that contains separators.) *)
Definition path_join (dir name : str) : str := dir ++ [SLASH] ++ name.

(* ===================================================================== *)
(** ** normalize_data_paths (run once at start-up) *)
(* ===================================================================== *)

(** The loop body: the record after the pass and whether it changed. *)
Definition heal_record (p : Paper.t) : Paper.t * bool :=
  match Paper.stored_path p with
  | Some sp =>
      let fixed := heal_path sp in
      if bool_decide (fixed <> sp)
      then (Paper.with_stored_path p fixed, true)
      else (p, false)
  | None => (p, false)
  end.

Definition normalize_data_paths (w : World) : World * Z :=
  let '(w, data) := load_data w in
  let healed := map heal_record data in
  let data := map fst healed in
  let changed := Z.of_nat (length (List.filter snd healed)) in
  if changed =? 0 then (w, changed) else (save_data data w, changed).

(* ===================================================================== *)
(** ** papers_list *)
(* ===================================================================== *)

(** request.args.get(...) for the four filters *)
Record ListArgs : Type := mkArgs {
  arg_year : option str;
  arg_semester : option str;
  arg_subject : option str;
  arg_exam_type : option str
}.

(** int(s) if s else None, with ValueError turned into None *)
Definition int_or_none (s : str) : option Z :=
  if nonempty s then
    match int_ s with
    | Ok z => Some z
    | Raise ValueError => None
    end
  else None.

(** The body of the filter loop: [false] where the source says continue. *)
Definition passes `{Runtime} (year semester : option Z)
    (subject exam_type : str) (p : Paper.t) : bool :=
  if match year with Some y => negb (Paper.year p =? y) | None => false end
  then false
  else if match semester with
          | Some s => negb (Paper.semester p =? s)
          | None => false
          end
  then false
  else if nonempty subject
          && negb (str_eqb (str_lower (Paper.subject p)) (str_lower subject))
  then false
  else if nonempty exam_type && negb (str_eqb (Paper.exam_type p) exam_type)
  then false
  else true.

(** The sort key (-exam_year, subject, exam_type) and the order of tuples. *)
Definition sort_key (x : Paper.t) : Z * str * str :=
  (- Paper.exam_year x, Paper.subject x, Paper.exam_type x).

Definition key_compare (a b : Z * str * str) : comparison :=
  let '(a1, a2, a3) := a in
  let '(b1, b2, b3) := b in
  match a1 ?= b1 with
  | Eq => match str_compare a2 b2 with
          | Eq => str_compare a3 b3
          | o => o
          end
  | o => o
  end.

Definition key_le (x y : Paper.t) : bool :=
  match key_compare (sort_key x) (sort_key y) with
  | Gt => false
  | _ => true
  end.

(** list.sort(key=...) is stable; a stable sort has one possible result,
    computed here by insertion from the right. *)
Fixpoint insert_by {A : Type} (le : A -> A -> bool) (x : A) (l : list A)
  : list A :=
  match l with
  | [] => [x]
  | y :: l' => if le x y then x :: l else y :: insert_by le x l'
  end.

Definition sort_by {A : Type} (le : A -> A -> bool) (l : list A) : list A :=
  foldr (insert_by le) [] l.

(** sorted({...}) on strings: ascending, without repetition *)
Fixpoint insert_uniq (x : str) (l : list str) : list str :=
  match l with
  | [] => [x]
  | y :: l' =>
      match str_compare x y with
      | Lt => x :: l
      | Eq => l
      | Gt => y :: insert_uniq x l'
      end
  end.

Definition sorted_set (l : list str) : list str := foldr insert_uniq [] l.

(** [n or ""] for an optional integer: None and 0 give "". *)
Definition int_or_blank (n : option Z) : option Z :=
  match n with
  | Some z => if z =? 0 then None else Some z
  | None => None
  end.

Definition papers_list `{Runtime} (args : ListArgs) (w : World)
  : World * response :=
  let '(w, data) := load_data w in
  let year_str := strip (py_or (arg_year args) []) in
  let semester_str := strip (py_or (arg_semester args) []) in
  let subject := strip (py_or (arg_subject args) []) in
  let exam_type := strip (py_or (arg_exam_type args) []) in
  let year := int_or_none year_str in
  let semester := int_or_none semester_str in
  let filtered := List.filter (passes year semester subject exam_type) data in
  let filtered := sort_by key_le filtered in
  let subjects_all :=
    sorted_set (map Paper.subject
                  (List.filter (passes year semester [] []) data)) in
  (w, RenderPapers
        (mkCtx (int_or_blank year) (int_or_blank semester) subject exam_type
               filtered subjects_all)).

(* ===================================================================== *)
(** ** upload *)
(* ===================================================================== *)

Inductive method : Type := GET | POST.

(** request.form.get(...) for the five fields *)
Record Form : Type := mkForm {
  form_subject : option str;
  form_exam_type : option str;
  form_year : option str;
  form_semester : option str;
  form_exam_year : option str
}.

(** An element of request.files.getlist("files") *)
Record FileStorage : Type := mkFile {
  filename : str;
  content : bytes
}.

(** The validated metadata of a batch. *)
Record Meta : Type := mkMeta {
  m_year : Z;
  m_semester : Z;
  m_subject : str;
  m_exam_type : str;
  m_exam_year : Z;
  m_academic_year : option str
}.

(** UPLOAD_FOLDER / str(year) / str(semester) / subject / exam_type *)
Definition target_dir (m : Meta) : str :=
  path_join
    (path_join (path_join (py_str (m_year m)) (py_str (m_semester m)))
       (m_subject m))
    (m_exam_type m).

(** The variables of the loop over the files. *)
Record Batch : Type := mkBatch {
  b_world : World;              (* disk and log; the store is untouched *)
  b_data : list Paper.t;
  saved_count : Z;
  skipped_count : Z;
  warnings : list warning_text
}.

Definition skip (b : Batch) (w : World) (msg : warning_text) : Batch :=
  mkBatch w (b_data b) (saved_count b) (skipped_count b + 1)
          (warnings b ++ [msg]).

(** One iteration of [for f in files]. *)
Definition upload_file `{Runtime} (m : Meta) (b : Batch) (f : FileStorage)
  : Batch :=
  let w := b_world b in
  if negb (allowed_file (filename f)) then
    skip b w (SkippedUnsupported (filename f))
  else
    let safe_name := secure_filename (filename f) in
    let file_path := path_join (target_dir m) safe_name in
    let w := mkWorld (store w) (disk w) (log w ++ [EvExists file_path]) in
    (* the old duplicate: [inl] is the continue of the except branch *)
    let removed : Batch + World :=
      match disk w !! file_path with
      | Some _ =>
          match unlink_error (length (log w)) file_path with
          | Some e =>
              inl (skip b
                     (mkWorld (store w) (disk w)
                        (log w ++ [EvUnlink file_path false]))
                     (CouldntRemoveOld safe_name e))
          | None =>
              inr (mkWorld (store w) (delete file_path (disk w))
                     (log w ++ [EvUnlink file_path true]))
          end
      | None => inr w
      end in
    match removed with
    | inl b' => b'
    | inr w =>
        (* f.save(file_path) *)
        let w := mkWorld (store w) (<[file_path := content f]> (disk w))
                   (log w ++ [EvWrite file_path]) in
        let record :=
          Paper.mk (next_id (b_data b)) (m_year m) (m_semester m) (m_subject m)
            (m_exam_type m) (m_exam_year m) (m_academic_year m) (filename f)
            (Some file_path) (now_isoformat (length (log w))) in
        mkBatch w (b_data b ++ [record]) (saved_count b + 1) (skipped_count b)
                (warnings b)
    end.

Definition upload_files `{Runtime} (m : Meta) (b : Batch)
    (files : list FileStorage) : Batch :=
  fold_left (upload_file m) files b.

(** The two flashes after the loop. *)
Definition upload_flashes (b : Batch) : list flash :=
  (if saved_count b =? 0 then []
   else [(MsgUploaded (saved_count b), success)])
  ++ (if negb (skipped_count b =? 0)
         || match warnings b with [] => false | _ :: _ => true end
      then [(match warnings b with
             | [] => MsgSkipped (skipped_count b)
             | ws => MsgWarnings ws
             end, warning)]
      else []).

(** [not exam_year or exam_year < 2000] *)
Definition bad_exam_year (exam_year : option Z) : bool :=
  match exam_year with
  | None => true
  | Some y => (y =? 0) || (y <? 2000)
  end.

Definition upload `{Runtime} (is_admin : bool) (meth : method) (form : Form)
    (files : list FileStorage) (w : World) : World * response :=
  if negb is_admin then (w, Redirect ToAdminLogin [])
  else
    match meth with
    | GET => (w, RenderUpload)
    | POST =>
        let subject := strip (py_or (form_subject form) []) in
        let exam_type := strip (py_or (form_exam_type form) []) in
        match (year ← int_ (py_or (form_year form) (lit "0"));
               semester ← int_ (py_or (form_semester form) (lit "0"));
               Ok (year, semester)) with
        | Raise ValueError => (w, Redirect ToUpload [(MsgNumbers, danger)])
        | Ok (year, semester) =>
            let raw_exam_year := strip (py_or (form_exam_year form) []) in
            match parse_exam_year (Some raw_exam_year) with
            | Raise e => (w, ServerError e)
            | Ok (exam_year, academic_year) =>
                if bad_exam_year exam_year then
                  (w, Redirect ToUpload [(MsgValidYear, warning)])
                else
                  let files :=
                    List.filter (fun f => nonempty (filename f)) files in
                  if negb (match files with [] => false | _ => true end) then
                    (w, Redirect ToUpload [(MsgChooseFile, warning)])
                  else if negb (nonempty subject)
                          || negb (bool_decide
                                     (exam_type ∈ [lit "Mid"; lit "End"]))
                          || negb (bool_decide (year ∈ [1; 2; 3; 4]))
                          || negb ((1 <=? semester) && (semester <? 9))
                  then (w, Redirect ToUpload [(MsgFillFields, warning)])
                  else
                    let m := mkMeta year semester subject exam_type
                               (default 0 exam_year) academic_year in
                    let w := mkWorld (store w) (disk w)
                               (log w ++ [EvMkdir (target_dir m)]) in
                    let '(w, data) := load_data w in
                    let b := upload_files m (mkBatch w data 0 0 []) files in
                    let w := save_data (b_data b) (b_world b) in
                    (w, Redirect (ToPapersListOf year semester subject)
                          (upload_flashes b))
            end
        end
    end.

(* ===================================================================== *)
(** ** delete_paper *)
(* ===================================================================== *)

Definition delete_paper `{Runtime} (is_admin : bool) (paper_id : Z)
    (next : option str) (w : World) : World * response :=
  if negb is_admin then (w, Redirect ToAdminLogin [])
  else
    let '(w, data) := load_data w in
    let record := List.find (fun p => Paper.id p =? paper_id) data in
    let next_url :=
      match py_or next [] with [] => ToPapersList | u => ToUrl u end in
    match record with
    | None => (w, Redirect next_url [(MsgNotFound, warning)])
    | Some record =>
        let rel := py_or (Paper.stored_path record) [] in
        (* unlink(missing_ok=True) inside try *)
        let '(w, flashes) :=
          if nonempty rel then
            match unlink_error (length (log w)) rel with
            | Some e =>
                (mkWorld (store w) (disk w) (log w ++ [EvUnlink rel false]),
                 [(MsgCouldntRemove e, warning)])
            | None =>
                (mkWorld (store w) (delete rel (disk w))
                   (log w ++ [EvUnlink rel true]), [])
            end
          else (w, []) in
        let data := List.filter (fun p => negb (Paper.id p =? paper_id)) data in
        let w := save_data data w in
        (w, Redirect next_url (flashes ++ [(MsgDeleted, success)]))
    end.

(* ===================================================================== *)
(** ** serve_file and the application as a transition system *)
(* ===================================================================== *)

Definition serve_file (relpath : str) (w : World) : World * response :=
  (w, SendFromDirectory (serve_path relpath)).

Inductive request : Type :=
| Startup
| GetPapers (args : ListArgs)
| Upload (is_admin : bool) (meth : method) (form : Form)
         (files : list FileStorage)
| DeletePaper (is_admin : bool) (paper_id : Z) (next : option str)
| GetFile (relpath : str).

Definition handle `{Runtime} (r : request) (w : World) : World * response :=
  match r with
  | Startup => let '(w, changed) := normalize_data_paths w in (w, Healed changed)
  | GetPapers args => papers_list args w
  | Upload is_admin meth form files => upload is_admin meth form files w
  | DeletePaper is_admin paper_id next => delete_paper is_admin paper_id next w
  | GetFile relpath => serve_file relpath w
  end.

(** The world after a sequence of requests. *)
Definition run `{Runtime} (rs : list request) (w : World) : World :=
  fold_left (fun w r => fst (handle r w)) rs w.

(** ** A runtime for the examples: ASCII-only lower-casing, a
    secure_filename that keeps ASCII letters, digits, ".", "-" and "_",
    unlink failing exactly for paths that start with "ro/", a fixed clock. *)
Definition example_safe_char (c : char) : bool :=
  ((48 <=? c) && (c <=? 57)) || ((65 <=? c) && (c <=? 90))
  || ((97 <=? c) && (c <=? 122)) || (c =? DOT) || (c =? HYPHEN)
  || (c =? UNDERSCORE).

Definition example_lower (s : str) : str := map ascii_lower s.

Definition example_secure_filename (s : str) : str :=
  List.filter example_safe_char s.

Definition example_unlink_error (t : nat) (path : str) : option str :=
  if starts_with (lit "1/1/Locked/") path
  then Some (lit "Permission denied")
  else None.

(** [old] occurs in [s] as a contiguous substring. *)
Definition occurs (old s : str) : Prop :=
  exists a b, s = a ++ old ++ b.

(** A path separator in either convention. *)
Definition is_sep (c : char) : Prop := c = SLASH \/ c = BACKSLASH.

(** Three separators in a row somewhere in [s]. *)
Definition triple_sep (s : str) : Prop :=
  exists a x y z b,
    s = a ++ [x; y; z] ++ b /\ is_sep x /\ is_sep y /\ is_sep z.

(* ===================================================================== *)
(** ** Vocabulary of the statements and example data *)
(* ===================================================================== *)

Definition to_slash (c : char) : char := if c =? BACKSLASH then SLASH else c.

(** The language of a regular expression. *)
Inductive matches : regex -> str -> Prop :=
| MEps : matches Eps []
| MChr c : matches (Chr c) [c]
| MDigit c : is_decimal c = true -> matches Digit [c]
| MSeq a b s1 s2 : matches a s1 -> matches b s2 -> matches (Seq a b) (s1 ++ s2)
| MAltL a b s : matches a s -> matches (Alt a b) s
| MAltR a b s : matches b s -> matches (Alt a b) s.

Definition all_decimal (s : str) : Prop := Forall (fun c => is_decimal c = true) s.

(** The value of a string of decimal digits. *)
Definition decimal_value (s : str) : Z :=
  fold_left (fun acc c => acc * 10 + default 0 (py_decimal c)) s 0.

(** No decimal digit is white space, a sign or an underscore. *)
Definition plain_digit (c : Z) : bool :=
  negb (py_isspace c) && negb (c =? PLUS) && negb (c =? HYPHEN)
  && negb (c =? UNDERSCORE).

(** The recognised forms, on the cleaned text. *)
Definition bare_year (s : str) : Prop := length s = 4%nat /\ all_decimal s.

Definition year_range (s g1 g2 : str) : Prop :=
  s = g1 ++ [HYPHEN] ++ g2
  /\ length g1 = 4%nat /\ all_decimal g1
  /\ (length g2 = 2%nat \/ length g2 = 4%nat) /\ all_decimal g2.

(** The end year of a range that starts in [start] and whose second part
    is [g2]: the century of [start] with the two digits of [g2], or the four
    digits of [g2], and [start + 1] when that falls before [start]. *)
Definition end_year (start : Z) (g2 : str) : Z :=
  let e := if (length g2 =? 2)%nat
           then start / 100 * 100 + decimal_value g2
           else decimal_value g2 in
  if e <? start then start + 1 else e.

Definition dash_to_hyphen (c : Z) : Z :=
  if (c =? EN_DASH) || (c =? EM_DASH) then HYPHEN else c.

(** The cleaning in the words of the specification: white space off both
    ends, every dash a hyphen, no space left inside. *)
Definition normalized (value : option str) : str :=
  List.filter (fun c => negb (c =? SPACE))
    (map dash_to_hyphen (strip (default [] value))).

(** The records left by delete_paper. *)
Definition without (paper_id : Z) (data : list Paper.t) : list Paper.t :=
  List.filter (fun p => negb (Paper.id p =? paper_id)) data.

Definition example_runtime : Runtime :=
  {| str_lower := example_lower;
     str_lower_ascii := fun s _ => eq_refl;
     secure_filename := example_secure_filename;
     unlink_error := example_unlink_error;
     now_isoformat := fun _ => lit "2025-01-01T00:00:00" |}.

(** Where an incoming file is written, relative to the upload folder. *)
Definition dest `{Runtime} (m : Meta) (f : FileStorage) : str :=
  path_join (target_dir m) (secure_filename (filename f)).

(** Whether the loop body saves [f] when it meets it in state [b]: the
    extension is allowed and, if the destination exists, unlinking it does
    not raise. *)
Definition accepts `{Runtime} (m : Meta) (b : Batch) (f : FileStorage) : bool :=
  allowed_file (filename f)
  && match disk (b_world b) !! dest m f with
     | Some _ =>
         match unlink_error (S (length (log (b_world b)))) (dest m f) with
         | Some _ => false
         | None => true
         end
     | None => true
     end.

(** The record appended for [f]. *)
Definition record_for `{Runtime} (m : Meta) (data : list Paper.t)
    (f : FileStorage) (at_ : str) : Paper.t :=
  Paper.mk (next_id data) (m_year m) (m_semester m) (m_subject m)
    (m_exam_type m) (m_exam_year m) (m_academic_year m) (filename f)
    (Some (dest m f)) at_.

Definition no_save (evs : list event) : Prop :=
  Forall (fun e => is_save e = false) evs.

(** The files of the request that have a name ("drop empties"). *)
Definition kept (files : list FileStorage) : list FileStorage :=
  List.filter (fun f => nonempty (filename f)) files.

(** The metadata checks of the specification: [m] is what the form
    validates to. *)
Definition validated (form : Form) (m : Meta) : Prop :=
  py_int (py_or (form_year form) (lit "0")) = Some (m_year m)
  /\ m_year m ∈ [1; 2; 3; 4]
  /\ py_int (py_or (form_semester form) (lit "0")) = Some (m_semester m)
  /\ 1 <= m_semester m <= 8
  /\ m_exam_type m = strip (py_or (form_exam_type form) [])
  /\ m_exam_type m ∈ [lit "Mid"; lit "End"]
  /\ m_subject m = strip (py_or (form_subject form) [])
  /\ m_subject m <> []
  /\ parse_exam_year (Some (strip (py_or (form_exam_year form) [])))
     = Ok (Some (m_exam_year m), m_academic_year m)
  /\ 2000 <= m_exam_year m.


(** The state in which the loop starts: after mkdir and load_data. *)
Definition batch_start (m : Meta) (w : World) : Batch :=
  mkBatch (mkWorld (store w) (disk w)
             ((log w ++ [EvMkdir (target_dir m)]) ++ [EvLoad]))
          (store w) 0 0 [].

(** The identifiers of a collection are positive and pairwise distinct. *)
Definition ids_unique (data : list Paper.t) : Prop :=
  List.NoDup (map Paper.id data) /\ Forall (fun p => 0 < Paper.id p) data.

Definition example_paper (i : Z) : Paper.t :=
  Paper.mk i 1 1 (lit "Physics") (lit "Mid") 2023 None (lit "paper.pdf")
    (Some (lit "1/1/Physics/Mid/paper" ++ py_str i ++ lit ".pdf"))
    (lit "2025-01-01T00:00:00").

Definition example_world (ids : list Z) : World :=
  mkWorld (map example_paper ids) ∅ [].

Definition example_form : Form :=
  mkForm (Some (lit "Physics")) (Some (lit "Mid")) (Some (lit "1"))
         (Some (lit "1")) (Some (lit "2023")).

(** A three-way comparison that decides a strict total order. *)
Record total_cmp {A : Type} (cmp : A -> A -> comparison) : Prop := {
  cmp_eq : forall a b, cmp a b = Eq -> a = b;
  cmp_refl : forall a, cmp a a = Eq;
  cmp_opp : forall a b, cmp b a = CompOpp (cmp a b);
  cmp_lt_trans : forall a b c, cmp a b = Lt -> cmp b c = Lt -> cmp a c = Lt
}.

(** The comparison of pairs, first component first. *)
Definition lex {A B : Type} (ca : A -> A -> comparison)
    (cb : B -> B -> comparison) (x y : A * B) : comparison :=
  match ca (fst x) (fst y) with
  | Eq => cb (snd x) (snd y)
  | o => o
  end.




(* ===================================================================== *)
(** ** The remaining routes: year and semester pages, admin session *)
(* ===================================================================== *)

(** The dict literal of year_to_semesters. *)
Definition SEMESTERS : gmap Z (list Z) :=
  <[1 := [1; 2]]> (<[2 := [3; 4]]> (<[3 := [5; 6]]> (<[4 := [7; 8]]> ∅))).

(** 1st year -> 1,2 ; 2nd -> 3,4 ; 3rd -> 5,6 ; 4th -> 7,8 *)
Definition year_to_semesters (year : Z) : list Z :=
  default [] (SEMESTERS !! year).

(** Messages and responses of the routes outside the record store. *)
Inductive page_message : Type :=
| MsgInvalidYear        (* "Invalid year." *)
| MsgLoggedIn           (* "Logged in successfully." *)
| MsgIncorrectPassword  (* "Incorrect password." *)
| MsgLoggedOut.         (* "Logged out." *)

Inductive page : Type :=
| RenderIndex (years : list Z)
| RenderYear (year : Z) (semesters : list Z)
| RenderSemester (year semester : Z) (subjects : list str)
| RenderAdminLogin
| RedirectIndex (flashes : list (page_message * category))
| RedirectAdminLogin (flashes : list (page_message * category))
| RedirectUpload (flashes : list (page_message * category))
| RedirectUrl (u : str) (flashes : list (page_message * category)).

Definition index : page := RenderIndex [1; 2; 3; 4].

Definition year_page (year : Z) : page :=
  let semesters := year_to_semesters year in
  match semesters with
  | [] => RedirectIndex [(MsgInvalidYear, warning)]
  | _ :: _ => RenderYear year semesters
  end.

Definition semester_page (year semester : Z) (w : World) : World * page :=
  let '(w, data) := load_data w in
  let subjects :=
    sorted_set
      (map Paper.subject
         (List.filter
            (fun p => (Paper.year p =? year) && (Paper.semester p =? semester))
            data)) in
  (w, RenderSemester year semester subjects).

(** The Flask session of one client: a dict in which the application only
    uses the key "is_admin". *)
Definition IS_ADMIN : string := "is_admin".

(** [session.get("is_admin")] as a truth value *)
Definition session_is_admin (session : gmap string bool) : bool :=
  default false (session !! IS_ADMIN).

(** [password] is request.form.get("password"), [next] is
    request.args.get("next"), [upload_password] is
    app.config["UPLOAD_PASSWORD"]. *)
Definition admin_login (upload_password : str) (meth : method)
    (password next : option str) (session : gmap string bool)
  : gmap string bool * page :=
  match meth with
  | POST =>
      let password := strip (py_or password []) in
      if str_eqb password upload_password then
        (<[IS_ADMIN := true]> session,
         match py_or next [] with
         | [] => RedirectUpload [(MsgLoggedIn, success)]
         | u => RedirectUrl u [(MsgLoggedIn, success)]
         end)
      else (session, RedirectAdminLogin [(MsgIncorrectPassword, danger)])
  | GET => (session, RenderAdminLogin)
  end.

Definition admin_logout (session : gmap string bool)
  : gmap string bool * page :=
  (delete IS_ADMIN session, RedirectIndex [(MsgLoggedOut, success)]).

(** One client talking to the application: its session and the world. *)
Record App : Type := mkApp {
  session : gmap string bool;
  world : World
}.

Inductive http_request : Type :=
| GET_index
| GET_year (year : Z)
| GET_semester (year semester : Z)
| GET_papers (args : ListArgs)
| ANY_admin_login (meth : method) (password next : option str)
| GET_admin_logout
| ANY_upload (meth : method) (form : Form) (files : list FileStorage)
| POST_delete (paper_id : Z) (next : option str)
| GET_files (relpath : str).

(** The routing table: each route with the session of the client. *)
Definition dispatch `{Runtime} (upload_password : str) (r : http_request)
    (a : App) : App * (response + page) :=
  match r with
  | GET_index => (a, inr index)
  | GET_year year => (a, inr (year_page year))
  | GET_semester year semester =>
      let '(w, p) := semester_page year semester (world a) in
      (mkApp (session a) w, inr p)
  | GET_papers args =>
      let '(w, r) := papers_list args (world a) in
      (mkApp (session a) w, inl r)
  | ANY_admin_login meth password next =>
      let '(s, p) := admin_login upload_password meth password next
                       (session a) in
      (mkApp s (world a), inr p)
  | GET_admin_logout =>
      let '(s, p) := admin_logout (session a) in
      (mkApp s (world a), inr p)
  | ANY_upload meth form files =>
      let '(w, r) := upload (session_is_admin (session a)) meth form files
                       (world a) in
      (mkApp (session a) w, inl r)
  | POST_delete paper_id next =>
      let '(w, r) := delete_paper (session_is_admin (session a)) paper_id next
                       (world a) in
      (mkApp (session a) w, inl r)
  | GET_files relpath =>
      let '(w, r) := serve_file relpath (world a) in
      (mkApp (session a) w, inl r)
  end.

Definition serve `{Runtime} (upload_password : str) (rs : list http_request)
    (a : App) : App :=
  fold_left (fun a r => fst (dispatch upload_password r a)) rs a.

(** A login attempt that carries the configured password. *)
Definition logs_in (upload_password : str) (r : http_request) : Prop :=
  match r with
  | ANY_admin_login POST password _ =>
      strip (py_or password []) = upload_password
  | _ => False
  end.

(** The fields of a record that the data model constrains. *)
Definition record_ok (p : Paper.t) : Prop :=
  1 <= Paper.year p <= 4
  /\ 1 <= Paper.semester p <= 8
  /\ (Paper.exam_type p = lit "Mid" \/ Paper.exam_type p = lit "End")
  /\ Paper.subject p <> []
  /\ 2000 <= Paper.exam_year p <= 9999.

(** Two records that differ at most in their stored path. *)
Definition same_but_path (p q : Paper.t) : Prop :=
  Paper.id p = Paper.id q /\ Paper.year p = Paper.year q
  /\ Paper.semester p = Paper.semester q /\ Paper.subject p = Paper.subject q
  /\ Paper.exam_type p = Paper.exam_type q
  /\ Paper.exam_year p = Paper.exam_year q
  /\ Paper.academic_year p = Paper.academic_year q
  /\ Paper.original_filename p = Paper.original_filename q
  /\ Paper.uploaded_at p = Paper.uploaded_at q.

(** Whether the stored path of a record holds a backslash. *)
Definition has_backslash (p : Paper.t) : bool :=
  match Paper.stored_path p with
  | Some sp => bool_decide (BACKSLASH ∈ sp)
  | None => false
  end.

(** Records with the same sort key. *)
Definition same_key (x y : Paper.t) : bool :=
  bool_decide (sort_key x = sort_key y).


(** The characters of decimal digits are untouched by the cleaning. *)
Definition cleaning_keeps (c : Z) : bool :=
  negb (py_isspace c) && negb (c =? EN_DASH) && negb (c =? EM_DASH).


(* ===================================================================== *)
(** * Properties *)
(* ===================================================================== *)

(** ** Strings *)

Lemma starts_with_app (old s : str) :
  starts_with old s = true <-> exists r, s = old ++ r.
Proof.
  revert s. induction old as [|a old IH]; intros s; simpl.
  - split; [intros _; now exists s | trivial].
  - destruct s as [|c s].
    + split; [discriminate | intros [r Hr]; discriminate].
    + rewrite andb_true_iff, Z.eqb_eq, IH. split.
      * intros [-> [r ->]]. now exists r.
      * intros [r Hr]. injection Hr as -> ->. split; [reflexivity | now exists r].
Qed.

Lemma occurs_cons (old s : str) (c : char) : occurs old s -> occurs old (c :: s).
Proof. intros (a & b & ->). now exists (c :: a), b. Qed.

Lemma replace_from_nil (old new : str) (k : nat) : replace_from old new k [] = [].
Proof. now destruct k. Qed.

Lemma replace_from_skip (old new : str) (k : nat) (s : str) :
  replace_from old new k s = replace_from old new O (drop k s).
Proof.
  revert s. induction k as [|k IH]; intros s.
  - now rewrite drop_0.
  - destruct s as [|c s]; [reflexivity|]. simpl. apply IH.
Qed.

(** The defining equation of replace for a non-empty pattern. *)
Lemma replace_cons (a : char) (old new : str) (c : char) (s : str) :
  replace (a :: old) new (c :: s) =
  if starts_with (a :: old) (c :: s)
  then new ++ replace (a :: old) new (drop (length old) s)
  else c :: replace (a :: old) new s.
Proof.
  unfold replace. cbn [replace_from].
  destruct (starts_with (a :: old) (c :: s)); [|reflexivity].
  f_equal. cbn [length pred]. apply replace_from_skip.
Qed.

Lemma replace_nil (a : char) (old new : str) : replace (a :: old) new [] = [].
Proof. reflexivity. Qed.

(** Without an occurrence of the pattern nothing is replaced. *)
Lemma replace_absent (a : char) (old new s : str) :
  ~ occurs (a :: old) s -> replace (a :: old) new s = s.
Proof.
  induction s as [|c s IH]; intros Hno; [reflexivity|].
  rewrite replace_cons.
  destruct (starts_with (a :: old) (c :: s)) eqn:E.
  - exfalso. apply Hno. apply starts_with_app in E as [r ->]. now exists [], r.
  - f_equal. apply IH. intros H. apply Hno. now apply occurs_cons.
Qed.

(** Replacing a one-character pattern by one character is a map. *)
Lemma replace_char (a b : char) (s : str) :
  replace [a] [b] s = map (fun c => if c =? a then b else c) s.
Proof.
  induction s as [|c s IH]; [reflexivity|].
  rewrite replace_cons. cbn [starts_with length drop map].
  rewrite andb_true_r, (Z.eqb_sym a c), drop_0, IH.
  destruct (c =? a); reflexivity.
Qed.

Lemma occurs_elem (old s : str) (c : char) : c ∈ old -> occurs old s -> c ∈ s.
Proof. intros Hc (a & b & ->). set_solver. Qed.

(** The characters of a replaced string come from the string or from the
    replacement. *)
Lemma replace_elem (a : char) (old new s : str) (c : char) :
  c ∈ replace (a :: old) new s -> c ∈ s \/ c ∈ new.
Proof.
  remember (length s) as n eqn:Hn. revert s Hn.
  induction n as [n IH] using lt_wf_ind. intros [|x s] Hn; [now left|].
  rewrite replace_cons.
  destruct (starts_with (a :: old) (x :: s)).
  - rewrite elem_of_app. intros [H|H]; [now right|].
    apply (IH (length (drop (length old) s))) in H;
      [|rewrite length_drop; simpl in Hn; lia|reflexivity].
    destruct H as [H|H]; [left|now right].
    apply elem_of_cons. right. eapply list_elem_of_lookup in H as [i Hi].
    rewrite lookup_drop in Hi. eapply list_elem_of_lookup. eauto.
  - rewrite elem_of_cons. intros [->|H]; [left; left|].
    apply (IH (length s)) in H; [|simpl in Hn; lia|reflexivity].
    destruct H as [H|H]; [left; now right|now right].
Qed.

Lemma drop_while_head (p : char -> bool) (s : str) (c : char) (r : str) :
  drop_while p s = c :: r -> p c = false.
Proof.
  induction s as [|x s IH]; simpl; [discriminate|].
  destruct (p x) eqn:E; [exact IH|]. intros [= -> _]. exact E.
Qed.

Lemma drop_while_id (p : char -> bool) (s : str) :
  match s with [] => True | c :: _ => p c = false end -> drop_while p s = s.
Proof. destruct s as [|c s]; simpl; [reflexivity|]. now intros ->. Qed.

Lemma drop_while_suffix (p : char -> bool) (s : str) :
  exists a, s = a ++ drop_while p s.
Proof.
  induction s as [|x s [a IH]]; simpl; [now exists []|].
  destruct (p x); [|now exists []]. exists (x :: a). simpl. now f_equal.
Qed.

(** ** Two or three equal characters in a row *)

Lemma occurs_cons_inv (old s : str) (c : char) :
  occurs old (c :: s) -> starts_with old (c :: s) = true \/ occurs old s.
Proof.
  intros ([|x a] & b & E).
  - left. apply starts_with_app. now exists b.
  - right. injection E as -> ->. now exists a, b.
Qed.

Lemma occurs_pair_cons (c x : char) (s : str) :
  occurs [c; c] (x :: s) ->
  (x = c /\ exists r, s = c :: r) \/ occurs [c; c] s.
Proof.
  intros [H|H]%occurs_cons_inv; [left|now right].
  apply starts_with_app in H as [r [= -> ->]]. eauto.
Qed.

Lemma replace_pair_short (c x : char) :
  replace [c; c] [c] [x] = [x].
Proof. rewrite replace_cons. cbn. now rewrite andb_false_r. Qed.

(** Collapsing pairs leaves no pair behind unless the text had a triple;
    and the result starts with [c] only if the text did. *)
Lemma replace_pair_collapses (c : char) (n : nat) (t : str) :
  (length t <= n)%nat ->
  ~ occurs [c; c; c] t ->
  ~ occurs [c; c] (replace [c; c] [c] t)
  /\ (forall r, replace [c; c] [c] t = c :: r -> exists r', t = c :: r').
Proof.
  revert t. induction n as [|n IH]; intros t Hlen Hno.
  { destruct t; [|simpl in Hlen; lia]. split; [|discriminate].
    intros ([|? ?] & ? & ?); discriminate. }
  destruct t as [|x [|y r]].
  - split; [|discriminate]. intros ([|? ?] & ? & ?); discriminate.
  - rewrite replace_pair_short. split.
    + intros ([|? [|? ?]] & ? & ?); discriminate.
    + intros r' [= -> _]. eauto.
  - rewrite replace_cons. cbn [starts_with length drop].
    rewrite andb_true_r.
    destruct ((c =? x) && (c =? y)) eqn:E.
    + apply andb_true_iff in E as [->%Z.eqb_eq ->%Z.eqb_eq].
      cbn [app].
      destruct (IH r) as [IH1 IH2].
      { simpl in Hlen. lia. }
      { intros H. apply Hno. now do 2 apply occurs_cons. }
      split; [|eauto].
      intros [[_ [r' Hr']]|H]%occurs_pair_cons; [|now apply IH1].
      apply IH2 in Hr' as [r'' ->]. apply Hno. now exists [], r''.
    + destruct (IH (y :: r)) as [IH1 IH2].
      { simpl in *. lia. }
      { intros H. apply Hno. now apply occurs_cons. }
      split.
      * intros [[-> [r' Hr']]|H]%occurs_pair_cons; [|now apply IH1].
        apply IH2 in Hr' as [r'' [= -> _]].
        now rewrite Z.eqb_refl in E.
      * intros r' [= -> _]. eauto.
Qed.

(** ** The two path normalisers *)

Lemma to_slash_map_no_backslash (s : str) : BACKSLASH ∉ map to_slash s.
Proof.
  induction s as [|c s IH]; simpl; [apply not_elem_of_nil|].
  apply not_elem_of_cons. split; [|exact IH].
  unfold to_slash. destruct (c =? BACKSLASH) eqn:E; [discriminate|].
  apply Z.eqb_neq in E. congruence.
Qed.

Lemma to_slash_map_id (s : str) : BACKSLASH ∉ s -> map to_slash s = s.
Proof.
  induction s as [|c s IH]; [reflexivity|].
  intros [Hc Hs]%not_elem_of_cons. simpl. rewrite IH by exact Hs.
  unfold to_slash. destruct (c =? BACKSLASH) eqn:E; [|reflexivity].
  apply Z.eqb_eq in E. congruence.
Qed.

Lemma heal_path_no_backslash (s : str) : BACKSLASH ∉ heal_path s.
Proof. unfold heal_path. rewrite replace_char. apply to_slash_map_no_backslash. Qed.

Lemma heal_path_without_backslash (s : str) :
  BACKSLASH ∉ s -> heal_path s = s.
Proof.
  intros H. unfold heal_path.
  rewrite (replace_absent BACKSLASH [BACKSLASH] [SLASH] s).
  - rewrite replace_char. now apply to_slash_map_id.
  - intros Ho. apply H. eapply occurs_elem; [|exact Ho]. set_solver.
Qed.

Lemma serve_path_no_backslash (s : str) : BACKSLASH ∉ serve_path s.
Proof.
  unfold serve_path, lstrip_by. intros H.
  destruct (drop_while_suffix (λ c, c =? SLASH)
              (replace [SLASH; SLASH] [SLASH] (replace [BACKSLASH] [SLASH] s)))
    as [a Ha].
  assert (H' : BACKSLASH ∈ replace [SLASH; SLASH] [SLASH]
                             (replace [BACKSLASH] [SLASH] s)).
  { rewrite Ha. set_solver. }
  apply replace_elem in H' as [H'|H'].
  - rewrite replace_char in H'. now apply to_slash_map_no_backslash in H'.
  - apply list_elem_of_singleton in H'. discriminate.
Qed.

Lemma serve_path_no_leading_slash (s r : str) : serve_path s <> SLASH :: r.
Proof.
  unfold serve_path, lstrip_by. intros H.
  apply drop_while_head in H. discriminate.
Qed.

(** A path that is already in normal form is left alone by serve_file. *)
Lemma serve_path_fixed (r : str) :
  BACKSLASH ∉ r -> ~ occurs [SLASH; SLASH] r -> (forall r', r <> SLASH :: r') ->
  serve_path r = r.
Proof.
  intros Hb Hd Hl. unfold serve_path, lstrip_by.
  rewrite replace_char. fold to_slash. rewrite to_slash_map_id by exact Hb.
  rewrite replace_absent by exact Hd.
  apply drop_while_id. destruct r as [|c r]; [trivial|].
  apply Z.eqb_neq. intros ->. now apply (Hl r).
Qed.

Lemma occurs_drop_while (p : char -> bool) (old s : str) :
  occurs old (drop_while p s) -> occurs old s.
Proof.
  destruct (drop_while_suffix p s) as [a Ha].
  intros (x & y & E). exists (a ++ x), y. rewrite Ha at 1. rewrite E.
  now rewrite <- app_assoc.
Qed.

Lemma triple_of_slashes (s : str) :
  occurs [SLASH; SLASH; SLASH] (map to_slash s) -> triple_sep s.
Proof.
  intros (a & b & E).
  apply map_eq_app in E as (a' & m & -> & <- & E).
  change ([SLASH; SLASH; SLASH] ++ b) with (SLASH :: SLASH :: SLASH :: b) in E.
  apply map_eq_cons in E as (x & m1 & -> & Hx & E).
  apply map_eq_cons in E as (y & m2 & -> & Hy & E).
  apply map_eq_cons in E as (z & m3 & -> & Hz & E).
  exists a', x, y, z, m3.
  assert (sep : forall c, to_slash c = SLASH -> is_sep c).
  { intros c. unfold to_slash, is_sep.
    destruct (c =? BACKSLASH) eqn:Ec; [apply Z.eqb_eq in Ec|]; auto. }
  auto.
Qed.

Lemma serve_path_collapsed (s : str) :
  ~ triple_sep s -> ~ occurs [SLASH; SLASH] (serve_path s).
Proof.
  intros Hno H. unfold serve_path, lstrip_by in H.
  apply occurs_drop_while in H. rewrite replace_char in H. fold to_slash in H.
  eapply (replace_pair_collapses SLASH); [reflexivity| |exact H].
  intros H3. apply Hno. now apply triple_of_slashes.
Qed.

(** ** Regular expressions: the matcher against the language *)

Lemma nullable_spec (r : regex) : nullable r = true <-> matches r [].
Proof.
  induction r as [| | c | | a IHa b IHb | a IHa b IHb]; simpl.
  - split; [discriminate | inversion 1].
  - split; [constructor | trivial].
  - split; [discriminate | inversion 1].
  - split; [discriminate | inversion 1].
  - rewrite andb_true_iff, IHa, IHb. split.
    + intros [Ha Hb]. change (@nil Z) with (@nil Z ++ []). now constructor.
    + inversion 1 as [| | |? ? s1 s2 H1 H2| |]; subst.
      match goal with E : _ ++ _ = [] |- _ => apply app_eq_nil in E as [-> ->] end.
      now split.
  - rewrite orb_true_iff, IHa, IHb. split.
    + intros [Ha|Hb]; [now apply MAltL | now apply MAltR].
    + inversion 1; subst; auto.
Qed.

Lemma deriv_spec (r : regex) (c : char) (s : str) :
  matches (deriv c r) s <-> matches r (c :: s).
Proof.
  revert s. induction r as [| | d | | a IHa b IHb | a IHa b IHb]; intros s; simpl.
  - split; inversion 1.
  - split; inversion 1.
  - destruct (c =? d) eqn:E.
    + apply Z.eqb_eq in E as ->. split; inversion 1; subst; constructor.
    + apply Z.eqb_neq in E. split; inversion 1; subst. congruence.
  - destruct (is_decimal c) eqn:E.
    + split; inversion 1; subst; now constructor.
    + split; inversion 1; subst. congruence.
  - assert (Hseq : matches (Seq (deriv c a) b) s <->
                   exists s1 s2, s = s1 ++ s2 /\ matches a (c :: s1) /\ matches b s2).
    { split.
      - inversion 1; subst. do 2 eexists. split; [reflexivity|].
        split; [now apply IHa | assumption].
      - intros (s1 & s2 & -> & H1 & H2). constructor; [now apply IHa | assumption]. }
    assert (Hfull : matches (Seq a b) (c :: s) <->
              (exists s1 s2, s = s1 ++ s2 /\ matches a (c :: s1) /\ matches b s2)
              \/ (matches a [] /\ matches b (c :: s))).
    { split.
      - inversion 1 as [| | |? ? s1 s2 H1 H2| |]; subst.
        match goal with E : _ ++ _ = _ :: _ |- _ => rename E into E' end.
        destruct s1 as [|x s1]; simpl in E'; subst.
        + right. now split.
        + injection E' as -> <-. left. eauto.
      - intros [(s1 & s2 & -> & H1 & H2)|[H1 H2]].
        + change (c :: s1 ++ s2) with ((c :: s1) ++ s2). now constructor.
        + change (c :: s) with ([] ++ c :: s). now constructor. }
    rewrite Hfull. destruct (nullable a) eqn:N.
    + apply nullable_spec in N. split.
      * inversion 1; subst; [left; now apply Hseq | right; split; [assumption | now apply IHb]].
      * intros [H|[_ H]]; [apply MAltL; now apply Hseq | apply MAltR; now apply IHb].
    + rewrite Hseq. split; [auto|]. intros [H|[H _]]; [assumption|].
      apply nullable_spec in H. congruence.
  - split.
    + inversion 1; subst; [apply MAltL; now apply IHa | apply MAltR; now apply IHb].
    + inversion 1; subst; [apply MAltL; now apply IHa | apply MAltR; now apply IHb].
Qed.

Lemma re_fullmatch_spec (r : regex) (s : str) :
  re_fullmatch r s = true <-> matches r s.
Proof.
  revert r. induction s as [|c s IH]; intros r; simpl.
  - apply nullable_spec.
  - rewrite IH. apply deriv_spec.
Qed.

Lemma matches_rep_digit (n : nat) (s : str) :
  matches (Rep n Digit) s <-> length s = n /\ all_decimal s.
Proof.
  revert s. induction n as [|n IH]; intros s; simpl.
  - split.
    + inversion 1. split; [reflexivity | constructor].
    + intros [H _]. destruct s; [constructor | discriminate].
  - split.
    + inversion 1 as [| | |? ? s1 s2 H1 H2| |]; subst.
      inversion H1; subst. apply IH in H2 as [<- H2].
      split; [reflexivity | now constructor].
    + intros [Hl Hd]. destruct s as [|c s]; [discriminate|].
      injection Hl as Hl. inversion Hd; subst.
      change (c :: s) with ([c] ++ s). constructor; [now constructor|].
      apply IH. now split.
Qed.

(** What the two patterns of parse_exam_year accept. *)
Lemma re_year_spec (s : str) :
  re_fullmatch re_year s = true <-> length s = 4%nat /\ all_decimal s.
Proof. rewrite re_fullmatch_spec. apply matches_rep_digit. Qed.

Lemma re_range_spec (s : str) :
  re_fullmatch re_range s = true <->
  exists g1 g2, s = g1 ++ [HYPHEN] ++ g2
    /\ length g1 = 4%nat /\ all_decimal g1
    /\ (length g2 = 2%nat \/ length g2 = 4%nat) /\ all_decimal g2.
Proof.
  rewrite re_fullmatch_spec. unfold re_range. split.
  - inversion 1 as [| | |? ? g1 t H1 H2| |]; subst.
    inversion H2 as [| | |? ? h g2 H3 H4| |]; subst.
    inversion H3; subst. apply (matches_rep_digit 4) in H1 as [L1 D1].
    exists g1, g2. split; [reflexivity|]. split; [assumption|]. split; [assumption|].
    inversion H4 as [| | | |? ? ? H5|? ? ? H5]; subst;
      [apply (matches_rep_digit 2) in H5 as [L2 D2]
      |apply (matches_rep_digit 4) in H5 as [L2 D2]]; auto.
  - intros (g1 & g2 & -> & L1 & D1 & L2 & D2).
    constructor; [now apply (matches_rep_digit 4)|].
    constructor; [constructor|].
    destruct L2 as [L2|L2];
      [apply MAltL; now apply (matches_rep_digit 2)
      |apply MAltR; now apply (matches_rep_digit 4)].
Qed.

(** ** int() and str() *)

Lemma py_decimal_run (c v : Z) :
  py_decimal c = Some v ->
  exists z, In z decimal_zeros /\ z <= c < z + 10 /\ v = c - z.
Proof.
  unfold py_decimal.
  destruct (List.find _ decimal_zeros) as [z|] eqn:E; [|discriminate].
  intros [= <-]. apply find_some in E as [Hin Hb].
  apply andb_true_iff in Hb as [?%Z.leb_le ?%Z.ltb_lt].
  exists z. split; [assumption | lia].
Qed.

Lemma py_decimal_range (c v : Z) : py_decimal c = Some v -> 0 <= v <= 9.
Proof. intros (z & _ & ? & ->)%py_decimal_run. lia. Qed.

Lemma py_decimal_ascii (d : Z) : 0 <= d <= 9 -> py_decimal (48 + d) = Some d.
Proof.
  intros H. unfold py_decimal. cbn [decimal_zeros List.find].
  replace (48 <=? 48 + d) with true by lia.
  replace (48 + d <? 48 + 10) with true by lia.
  cbn. f_equal. lia.
Qed.

Lemma decimal_runs_plain :
  forallb (fun z => forallb (fun k => plain_digit (z + Z.of_nat k)) (seq 0 10))
    decimal_zeros = true.
Proof. vm_compute. reflexivity. Qed.

Lemma is_decimal_plain (c : Z) : is_decimal c = true -> plain_digit c = true.
Proof.
  unfold is_decimal. destruct (py_decimal c) as [v|] eqn:E; [|discriminate].
  intros _. apply py_decimal_run in E as (z & Hin & Hc & ->).
  pose proof decimal_runs_plain as H.
  rewrite forallb_forall in H. specialize (H z Hin).
  rewrite forallb_forall in H. specialize (H (Z.to_nat (c - z))).
  replace (z + Z.of_nat (Z.to_nat (c - z))) with c in H by lia.
  apply H. apply in_seq. lia.
Qed.

Lemma drop_while_none (p : Z -> bool) (s : str) :
  Forall (fun c => p c = false) s -> drop_while p s = s.
Proof. intros H. apply drop_while_id. destruct H; auto. Qed.

Lemma strip_by_none (p : Z -> bool) (s : str) :
  Forall (fun c => p c = false) s -> strip_by p s = s.
Proof.
  intros H. unfold strip_by, rstrip_by, lstrip_by.
  rewrite (drop_while_none p s) by exact H.
  rewrite drop_while_none; [apply rev_involutive|].
  now apply List.Forall_rev.
Qed.

Lemma int_digits_decimal (s : str) (acc : Z) (prev : bool) :
  all_decimal s -> s <> [] \/ prev = true ->
  int_digits acc prev s =
  Some (fold_left (fun a c => a * 10 + default 0 (py_decimal c)) s acc).
Proof.
  intros H. revert acc prev. induction H as [|c s Hc Hs IH]; intros acc prev Hp.
  - destruct Hp as [Hp| ->]; [congruence | reflexivity].
  - simpl. unfold is_decimal in Hc.
    destruct (py_decimal c) as [v|]; [|discriminate].
    apply IH. now right.
Qed.

(** int() of a non-empty string of decimal digits never raises. *)
Lemma py_int_decimal (s : str) :
  all_decimal s -> s <> [] -> py_int s = Some (decimal_value s).
Proof.
  intros H Hne. unfold py_int.
  assert (Hplain : Forall (fun c => plain_digit c = true) s).
  { eapply Forall_impl; [exact H|]. intros c. apply is_decimal_plain. }
  rewrite strip_by_none.
  2:{ eapply Forall_impl; [exact Hplain|]. intros c Hc. unfold plain_digit in Hc.
      unfold int_space. destruct (py_isspace c); [discriminate | reflexivity]. }
  destruct s as [|c r]; [congruence|].
  inversion Hplain as [|? ? Hc _]; subst. unfold plain_digit in Hc.
  destruct (c =? PLUS); [now rewrite !andb_false_r in Hc; cbn in Hc|].
  destruct (c =? HYPHEN); [now rewrite !andb_false_r in Hc; cbn in Hc|].
  now apply int_digits_decimal; [|left].
Qed.

Lemma fold_decimal_nonneg (s : str) (a : Z) :
  0 <= a -> 0 <= fold_left (fun acc c => acc * 10 + default 0 (py_decimal c)) s a.
Proof.
  revert a. induction s as [|c s IH]; intros a Ha; simpl; [exact Ha|].
  apply IH. destruct (py_decimal c) as [v|] eqn:E; simpl; [|lia].
  apply py_decimal_range in E. lia.
Qed.

Lemma decimal_value_nonneg (s : str) : 0 <= decimal_value s.
Proof. apply fold_decimal_nonneg. lia. Qed.

Lemma digits_of_acc (fuel : nat) (n : Z) (acc : str) :
  digits_of fuel n acc = digits_of fuel n [] ++ acc.
Proof.
  revert n acc. induction fuel as [|f IH]; intros n acc; simpl; [reflexivity|].
  destruct (n <? 10); [reflexivity|].
  rewrite (IH _ (_ :: acc)), (IH _ [_]), <- app_assoc. reflexivity.
Qed.

Lemma digits_of_value (fuel : nat) (n : Z) :
  (0 < fuel)%nat -> 0 <= n < 2 ^ Z.of_nat fuel ->
  let ds := digits_of fuel n [] in
  all_decimal ds /\ ds <> [] /\ decimal_value ds = n.
Proof.
  revert n. induction fuel as [|f IH]; intros n Hf Hn.
  { lia. }
  cbn zeta. simpl digits_of.
  assert (Hd : py_decimal (48 + n mod 10) = Some (n mod 10)).
  { apply py_decimal_ascii. pose proof (Z.mod_pos_bound n 10). lia. }
  destruct (n <? 10) eqn:E.
  - apply Z.ltb_lt in E. repeat split.
    + constructor; [|constructor]. unfold is_decimal. now rewrite Hd.
    + discriminate.
    + unfold decimal_value. simpl. rewrite Hd. simpl.
      rewrite Z.mod_small; lia.
  - apply Z.ltb_ge in E. rewrite digits_of_acc.
    destruct (IH (n / 10)) as (H1 & H2 & H3).
    { destruct f; [simpl in Hn|]; lia. }
    { rewrite Nat2Z.inj_succ, Z.pow_succ_r in Hn by lia.
      split; [apply Z.div_pos; lia|].
      apply Z.div_lt_upper_bound; lia. }
    repeat split.
    + apply Forall_app. split; [exact H1|].
      constructor; [|constructor]. unfold is_decimal. now rewrite Hd.
    + intros [? _]%app_eq_nil. contradiction.
    + unfold decimal_value in *. rewrite fold_left_app. simpl.
      rewrite H3, Hd. simpl. pose proof (Z.div_mod n 10). lia.
Qed.

Lemma py_str_decimal (n : Z) :
  0 <= n ->
  all_decimal (py_str n) /\ py_str n <> [] /\ decimal_value (py_str n) = n.
Proof.
  intros Hn. unfold py_str. replace (n <? 0) with false by lia.
  apply digits_of_value; [lia|]. split; [lia|].
  destruct (Z.eq_dec n 0) as [->|Hz]; [simpl; lia|].
  rewrite Nat2Z.inj_succ, Z2Nat.id by apply Z.log2_nonneg.
  apply Z.log2_spec. lia.
Qed.

(** int(str(n)) is n. *)
Lemma py_int_py_str (n : Z) : 0 <= n -> py_int (py_str n) = Some n.
Proof.
  intros Hn. destruct (py_str_decimal n Hn) as (H1 & H2 & H3).
  rewrite py_int_decimal by assumption. now rewrite H3.
Qed.

(** ** parse_exam_year *)

Lemma replace_char_remove (a : Z) (s : str) :
  replace [a] [] s = List.filter (fun c => negb (c =? a)) s.
Proof.
  induction s as [|c s IH]; [reflexivity|].
  rewrite replace_cons. cbn [starts_with length List.filter].
  rewrite andb_true_r, (Z.eqb_sym a c), drop_0, IH.
  destruct (c =? a); reflexivity.
Qed.

Lemma clean_exam_year_normalized (value : option str) :
  clean_exam_year value = normalized value.
Proof.
  unfold clean_exam_year, normalized.
  rewrite replace_char_remove, !replace_char, map_map. f_equal.
  apply map_ext. intros c. unfold dash_to_hyphen.
  destruct (c =? EN_DASH) eqn:E1; [reflexivity|].
  destruct (c =? EM_DASH); reflexivity.
Qed.

Lemma all_decimal_nonempty_int (s : str) :
  all_decimal s -> (0 < length s)%nat -> int_ s = Ok (decimal_value s).
Proof.
  intros H Hl. unfold int_. rewrite py_int_decimal; [reflexivity|assumption|].
  destruct s; [simpl in Hl; lia | discriminate].
Qed.

Lemma parse_exam_year_bare (value : option str) :
  bare_year (clean_exam_year value) ->
  parse_exam_year value = Ok (Some (decimal_value (clean_exam_year value)), None).
Proof.
  intros [Hl Hd]. unfold parse_exam_year. cbn zeta.
  rewrite (proj2 (re_year_spec _)) by now split.
  rewrite firstn_all2 by (rewrite Hl; reflexivity).
  rewrite all_decimal_nonempty_int by (assumption || lia). reflexivity.
Qed.

Lemma parse_exam_year_range (value : option str) (g1 g2 : str) :
  year_range (clean_exam_year value) g1 g2 ->
  parse_exam_year value =
  Ok (Some (decimal_value g1),
      Some (py_str (decimal_value g1) ++ [HYPHEN]
            ++ py_str (end_year (decimal_value g1) g2))).
Proof.
  intros (E & L1 & D1 & L2 & D2). unfold parse_exam_year. cbn zeta.
  destruct (re_fullmatch re_year (clean_exam_year value)) eqn:Y.
  { apply re_year_spec in Y as [Y _]. rewrite E, !length_app, L1 in Y.
    simpl in Y. lia. }
  rewrite (proj2 (re_range_spec _)) by (exists g1, g2; auto).
  rewrite E.
  rewrite take_app_length' by (symmetry; exact L1).
  replace (drop 5 (g1 ++ [HYPHEN] ++ g2)) with g2.
  2:{ rewrite (app_assoc g1 [HYPHEN] g2).
      rewrite drop_app_length'; [reflexivity|].
      rewrite length_app, L1. reflexivity. }
  rewrite (all_decimal_nonempty_int g1) by (assumption || lia).
  cbn [mbind result_bind]. unfold end_year.
  pose proof (decimal_value_nonneg g1) as P1.
  pose proof (decimal_value_nonneg g2) as P2.
  rewrite (all_decimal_nonempty_int g2) by (assumption || lia).
  destruct L2 as [L2|L2]; rewrite L2; cbn [Nat.eqb mbind result_bind].
  - unfold int_. rewrite py_int_py_str; [reflexivity|].
    assert (0 <= decimal_value g1 / 100) by (apply Z.div_pos; lia). lia.
  - reflexivity.
Qed.

Lemma parse_exam_year_other (value : option str) :
  ~ bare_year (clean_exam_year value) ->
  (forall g1 g2, ~ year_range (clean_exam_year value) g1 g2) ->
  parse_exam_year value = Ok (None, None).
Proof.
  intros Hb Hr. unfold parse_exam_year. cbn zeta.
  destruct (re_fullmatch re_year _) eqn:Y.
  { exfalso. apply Hb. now apply re_year_spec. }
  destruct (re_fullmatch re_range _) eqn:R; [|reflexivity].
  exfalso. apply re_range_spec in R as (g1 & g2 & H). now apply (Hr g1 g2).
Qed.

(** C3.  The exam-year parser never raises, and what it returns is decided
    by the cleaned text (white space stripped from both ends, en and em
    dashes turned into hyphens, spaces removed): four decimal digits give
    (year, None); four digits, a hyphen and two or four digits give
    (start, "start-end"); everything else gives (None, None).  The four
    inputs of the specification evaluate as it says. *)
Theorem parse_exam_year_recognizes :
  (forall value : option str,
     clean_exam_year value = normalized value
     /\ (bare_year (normalized value) ->
         parse_exam_year value =
         Ok (Some (decimal_value (normalized value)), None))
     /\ (forall g1 g2, year_range (normalized value) g1 g2 ->
         parse_exam_year value =
         Ok (Some (decimal_value g1),
             Some (py_str (decimal_value g1) ++ [HYPHEN]
                   ++ py_str (end_year (decimal_value g1) g2))))
     /\ (~ bare_year (normalized value) ->
         (forall g1 g2, ~ year_range (normalized value) g1 g2) ->
         parse_exam_year value = Ok (None, None))
     /\ (exists r, parse_exam_year value = Ok r))
  /\ parse_exam_year (Some (lit "2024")) = Ok (Some 2024, None)
  /\ parse_exam_year (Some (lit "2024-25")) =
     Ok (Some 2024, Some (lit "2024-2025"))
  /\ parse_exam_year (Some (lit "2024" ++ [EN_DASH] ++ lit "2026")) =
     Ok (Some 2024, Some (lit "2024-2026"))
  /\ parse_exam_year (Some (lit "2024 " ++ [EM_DASH] ++ lit " 25")) =
     Ok (Some 2024, Some (lit "2024-2025"))
  /\ parse_exam_year (Some (lit "abc")) = Ok (None, None)
  /\ parse_exam_year (Some []) = Ok (None, None)
  /\ parse_exam_year None = Ok (None, None).
Proof.
  split; [|repeat apply conj; vm_compute; reflexivity].
  intros value. rewrite <- clean_exam_year_normalized.
  split; [reflexivity|].
  split; [apply parse_exam_year_bare|].
  split; [apply parse_exam_year_range|].
  split; [apply parse_exam_year_other|].
  destruct (re_fullmatch re_year (clean_exam_year value)) eqn:Y.
  - apply re_year_spec in Y. rewrite parse_exam_year_bare by exact Y. eauto.
  - destruct (re_fullmatch re_range (clean_exam_year value)) eqn:R.
    + apply re_range_spec in R as (g1 & g2 & R).
      rewrite (parse_exam_year_range _ g1 g2) by exact R. eauto.
    + unfold parse_exam_year. cbn zeta. rewrite Y, R. eauto.
Qed.

(** C4.  For a range, the end year shown is: with a two-digit end, the
    century of the start year plus those two digits; with a four-digit end,
    that year; and start + 1 whenever this would be less than the start
    year.  "2024-05" shows 2024-2025 and "2099-00" shows 2099-2100. *)
Theorem parse_exam_year_end_year :
  (forall (value : option str) (g1 g2 : str),
     year_range (clean_exam_year value) g1 g2 ->
     let start := decimal_value g1 in
     let digits := decimal_value g2 in
     exists end_ : Z,
       parse_exam_year value =
       Ok (Some start, Some (py_str start ++ [HYPHEN] ++ py_str end_))
       /\ (length g2 = 2%nat ->
           end_ = if start / 100 * 100 + digits <? start
                  then start + 1 else start / 100 * 100 + digits)
       /\ (length g2 = 4%nat ->
           end_ = if digits <? start then start + 1 else digits)
       /\ start <= end_)
  /\ parse_exam_year (Some (lit "2024-25")) =
     Ok (Some 2024, Some (lit "2024-2025"))
  /\ parse_exam_year (Some (lit "2024-2030")) =
     Ok (Some 2024, Some (lit "2024-2030"))
  /\ parse_exam_year (Some (lit "2024-05")) =
     Ok (Some 2024, Some (lit "2024-2025"))
  /\ parse_exam_year (Some (lit "2024-2019")) =
     Ok (Some 2024, Some (lit "2024-2025"))
  /\ parse_exam_year (Some (lit "2099-00")) =
     Ok (Some 2099, Some (lit "2099-2100")).
Proof.
  split; [|repeat apply conj; vm_compute; reflexivity].
  intros value g1 g2 H start digits.
  exists (end_year start g2).
  split; [now apply parse_exam_year_range|].
  unfold end_year. fold digits.
  split; [intros ->; reflexivity|].
  split; [intros ->; reflexivity|].
  destruct (_ <? start) eqn:E; [lia|]. now apply Z.ltb_ge in E.
Qed.

Lemma parse_exam_year_end_year_witness :
  exists end_ : Z,
    parse_exam_year (Some (lit "2099-00")) =
    Ok (Some (decimal_value (lit "2099")),
        Some (py_str (decimal_value (lit "2099")) ++ [HYPHEN] ++ py_str end_))
    /\ end_ = (if decimal_value (lit "2099") / 100 * 100
                    + decimal_value (lit "00") <? decimal_value (lit "2099")
               then decimal_value (lit "2099") + 1
               else decimal_value (lit "2099") / 100 * 100
                    + decimal_value (lit "00")).
Proof.
  assert (H : year_range (clean_exam_year (Some (lit "2099-00")))
                (lit "2099") (lit "00")).
  { unfold year_range, all_decimal.
    split; [vm_compute; reflexivity|].
    split; [reflexivity|].
    split; [repeat constructor|].
    split; [left; reflexivity | repeat constructor]. }
  destruct (proj1 parse_exam_year_end_year _ _ _ H) as (e & P & E2 & _).
  exists e. split; [exact P | exact (E2 eq_refl)].
Defined.

(** ** next_id *)

Lemma fold_max_ge (xs : list Z) (a : Z) :
  a <= fold_left Z.max xs a /\ Forall (fun x => x <= fold_left Z.max xs a) xs.
Proof.
  revert a. induction xs as [|x xs IH]; intros a; simpl.
  - split; [lia | constructor].
  - destruct (IH (Z.max a x)) as [H1 H2]. split; [lia|].
    constructor; [lia | exact H2].
Qed.

Lemma fold_max_in (xs : list Z) (a : Z) :
  fold_left Z.max xs a = a \/ In (fold_left Z.max xs a) xs.
Proof.
  revert a. induction xs as [|x xs IH]; intros a; simpl; [now left|].
  destruct (IH (Z.max a x)) as [H|H]; [|now right; right].
  rewrite H. destruct (Z.max_spec a x) as [[_ ->]|[_ ->]]; auto.
Qed.

(** [py_max] on a non-empty list is its greatest element. *)
Lemma py_max_spec (xs : list Z) (d m : Z) :
  xs <> [] ->
  py_max xs d = m <-> In m xs /\ Forall (fun x => x <= m) xs.
Proof.
  destruct xs as [|x xs]; [congruence|]. intros _. simpl.
  pose proof (fold_max_ge xs x) as [G1 G2].
  pose proof (fold_max_in xs x) as I.
  split.
  - intros <-. split; [destruct I as [->|I]; auto|].
    constructor; assumption.
  - intros [Hin Hall]. inversion Hall as [|? ? Hx Hxs]; subst.
    assert (fold_left Z.max xs x <= m).
    { destruct I as [->|I]; [exact Hx|].
      rewrite List.Forall_forall in Hxs. now apply Hxs. }
    assert (m <= fold_left Z.max xs x).
    { destruct Hin as [<-|Hin]; [exact G1|].
      rewrite List.Forall_forall in G2. now apply G2. }
    lia.
Qed.

(** The next id is above every id in the collection. *)
Lemma next_id_above (data : list Paper.t) (p : Paper.t) :
  In p data -> Paper.id p < next_id data.
Proof.
  intros Hin. unfold next_id.
  assert (Hne : map Paper.id data <> []) by (destruct data; [destruct Hin | discriminate]).
  destruct (proj1 (py_max_spec (map Paper.id data) 0 _ Hne) eq_refl)
    as [_ Hall].
  rewrite List.Forall_forall in Hall.
  specialize (Hall (Paper.id p) (in_map _ _ _ Hin)). lia.
Qed.

Lemma next_id_positive (data : list Paper.t) :
  Forall (fun p => 0 < Paper.id p) data -> 0 < next_id data.
Proof.
  intros H. destruct data as [|p data]; [reflexivity|].
  inversion H; subst.
  pose proof (next_id_above (p :: data) p (or_introl eq_refl)). lia.
Qed.

(** Removing a record that does not hold the greatest id leaves the next
    id as it was. *)
Lemma next_id_without_lower (data : list Paper.t) (k : Z) (q : Paper.t) :
  In q data -> k < Paper.id q -> next_id (without k data) = next_id data.
Proof.
  intros Hq Hk. unfold next_id. f_equal.
  assert (Hne : map Paper.id data <> []) by (destruct data; [destruct Hq | discriminate]).
  destruct (proj1 (py_max_spec (map Paper.id data) 0 _ Hne) eq_refl) as [Hin Hall].
  set (m := py_max (map Paper.id data) 0) in *.
  assert (Hm : k < m).
  { rewrite List.Forall_forall in Hall.
    specialize (Hall _ (in_map Paper.id _ _ Hq)). lia. }
  apply in_map_iff in Hin as (pm & Epm & Hpm).
  assert (Hpm' : In pm (without k data)).
  { apply filter_In. split; [exact Hpm|]. apply negb_true_iff, Z.eqb_neq. lia. }
  apply py_max_spec.
  - intros E. apply (in_map Paper.id) in Hpm'. rewrite E in Hpm'. destruct Hpm'.
  - split; [rewrite <- Epm; now apply in_map|].
    apply List.Forall_forall. intros x (p & <- & Hp)%in_map_iff.
    apply filter_In in Hp as [Hp _].
    rewrite List.Forall_forall in Hall. apply Hall. now apply in_map.
Qed.

(** ** The upload loop *)

Section UploadLoop.
Context `{Runtime}.
Variable m : Meta.

Lemma upload_file_skips (b : Batch) (f : FileStorage) :
accepts m b f = false ->
let b' := upload_file m b f in
b_data b' = b_data b
/\ disk (b_world b') = disk (b_world b)
/\ store (b_world b') = store (b_world b)
/\ saved_count b' = saved_count b
/\ skipped_count b' = skipped_count b + 1
/\ length (warnings b') = S (length (warnings b))
/\ exists evs, log (b_world b') = log (b_world b) ++ evs /\ no_save evs.
Proof.
unfold accepts, upload_file, dest. cbn zeta.
destruct (allowed_file (filename f)); cbn [negb andb].
- cbn [disk log]. rewrite length_app, Nat.add_1_r.
  destruct (disk (b_world b) !! _); [|discriminate].
  destruct (unlink_error _ _); [|discriminate]. intros _.
  cbn. rewrite length_app, Nat.add_1_r.
  repeat split; try reflexivity.
  eexists. rewrite <- app_assoc. split; [reflexivity|].
  repeat constructor.
- intros _. cbn. rewrite length_app, Nat.add_1_r.
  repeat split; try reflexivity.
  exists []. rewrite app_nil_r. split; [reflexivity | constructor].
Qed.

Lemma upload_file_saves (b : Batch) (f : FileStorage) :
accepts m b f = true ->
let b' := upload_file m b f in
(exists at_, b_data b' = b_data b ++ [record_for m (b_data b) f at_])
/\ disk (b_world b') = <[dest m f := content f]> (disk (b_world b))
/\ store (b_world b') = store (b_world b)
/\ saved_count b' = saved_count b + 1
/\ skipped_count b' = skipped_count b
/\ warnings b' = warnings b
/\ exists evs, log (b_world b') = log (b_world b) ++ evs /\ no_save evs.
Proof.
unfold accepts, upload_file, dest, record_for. cbn zeta.
destruct (allowed_file (filename f)); cbn [negb andb]; [|discriminate].
cbn [disk log]. rewrite length_app, Nat.add_1_r.
destruct (disk (b_world b) !! _).
- destruct (unlink_error _ _); [discriminate|]. intros _. cbn.
  rewrite insert_delete_eq.
  repeat split; try reflexivity; [eexists; reflexivity|].
  eexists. rewrite <- !app_assoc. split; [reflexivity|].
  repeat constructor.
- intros _. cbn.
  repeat split; try reflexivity; [eexists; reflexivity|].
  eexists. rewrite <- !app_assoc. split; [reflexivity|].
  repeat constructor.
Qed.


(** What the loop as a whole maintains. *)
Lemma upload_files_counts (fs : list FileStorage) (b : Batch) :
let b' := upload_files m b fs in
saved_count b' + skipped_count b'
  = saved_count b + skipped_count b + Z.of_nat (length fs)
/\ Z.of_nat (length (b_data b')) - saved_count b'
   = Z.of_nat (length (b_data b)) - saved_count b
/\ saved_count b <= saved_count b'
/\ skipped_count b <= skipped_count b'
/\ Z.of_nat (length (warnings b')) - skipped_count b'
   = Z.of_nat (length (warnings b)) - skipped_count b
/\ store (b_world b') = store (b_world b)
/\ (exists added, b_data b' = b_data b ++ added)
/\ exists evs, log (b_world b') = log (b_world b) ++ evs /\ no_save evs.
Proof.
revert b. induction fs as [|f fs IH]; intros b.
- cbn. repeat split; try lia.
  + exists []. now rewrite app_nil_r.
  + exists []. rewrite app_nil_r. split; [reflexivity | constructor].
- cbn zeta. change (upload_files m b (f :: fs))
    with (upload_files m (upload_file m b f) fs).
  destruct (IH (upload_file m b f))
    as (I1 & I2 & I3 & I4 & I5 & I6 & [added I7] & (evs & I8 & I9)).
  rewrite I1, I2, I5, I6, I7, I8.
  destruct (accepts m b f) eqn:A.
  + destruct (upload_file_saves b f A)
      as ([at_ S1] & _ & S3 & S4 & S5 & S6 & (evs' & S7 & S8)).
    rewrite S1, S3, S4, S5, S6, S7, length_app. cbn [length].
    rewrite S4 in I3. rewrite S5 in I4.
    repeat split; try lia.
    * eexists. rewrite <- app_assoc. reflexivity.
    * exists (evs' ++ evs). rewrite app_assoc. split; [reflexivity|].
      now apply Forall_app.
  + destruct (upload_file_skips b f A)
      as (S1 & _ & S3 & S4 & S5 & S6 & (evs' & S7 & S8)).
    rewrite S1, S3, S4, S5, S6, S7. cbn [length].
    rewrite S4 in I3. rewrite S5 in I4.
    repeat split; try lia.
    * now exists added.
    * exists (evs' ++ evs). rewrite app_assoc. split; [reflexivity|].
      now apply Forall_app.
Qed.
End UploadLoop.

(** ** upload *)

Section UploadHandler.
Context `{Runtime}.

(** Either the request leaves the world as it was, or it is a POST of an
  administrator whose metadata validate and that carries a file. *)
Lemma upload_cases (is_admin : bool) (meth : method) (form : Form)
  (files : list FileStorage) (w : World) :
fst (upload is_admin meth form files w) = w
\/ (is_admin = true /\ meth = POST /\ kept files <> []
    /\ exists m, validated form m).
Proof.
unfold upload.
destruct is_admin; [|left; reflexivity]. cbn [negb].
destruct meth; [left; reflexivity|]. cbn zeta. unfold int_.
destruct (py_int (py_or (form_year form) _)) as [year|] eqn:Ey;
  [|left; reflexivity].
destruct (py_int (py_or (form_semester form) _)) as [semester|] eqn:Es;
  [|left; reflexivity].
cbn [mbind result_bind].
destruct (parse_exam_year _) as [[exam_year academic_year]|e] eqn:Ep;
  [|left; reflexivity].
destruct (bad_exam_year exam_year) eqn:Eb; [left; reflexivity|].
fold (kept files).
destruct (kept files) as [|f fs] eqn:Ek; [left; reflexivity|]. cbn [negb].
match goal with |- context [if ?c then _ else _] => destruct c eqn:Ec end;
  [left; reflexivity|].
right. split; [reflexivity|]. split; [reflexivity|].
split; [discriminate|].
destruct exam_year as [y|]; [|discriminate]. simpl in Eb.
apply orb_false_iff in Eb as [_ Eb%Z.ltb_ge].
repeat (apply orb_false_iff in Ec as [Ec ?]).
repeat match goal with
       | H : negb _ = false |- _ => apply negb_false_iff in H
       end.
match goal with H : _ && _ = true |- _ =>
  apply andb_true_iff in H as [?%Z.leb_le ?%Z.ltb_lt] end.
repeat match goal with
       | H : bool_decide _ = true |- _ => apply bool_decide_eq_true in H
       end.
exists (mkMeta year semester (strip (py_or (form_subject form) []))
          (strip (py_or (form_exam_type form) [])) y academic_year).
unfold validated. cbn [m_year m_semester m_subject m_exam_type
                         m_exam_year m_academic_year].
repeat split; try assumption; try lia.
intros E. rewrite E in Ec. discriminate.
Qed.


Lemma upload_accepts (form : Form) (m : Meta) (files : list FileStorage)
  (w : World) :
validated form m -> kept files <> [] ->
let b := upload_files m (batch_start m w) (kept files) in
upload true POST form files w =
(save_data (b_data b) (b_world b),
 Redirect (ToPapersListOf (m_year m) (m_semester m) (m_subject m))
   (upload_flashes b)).
Proof.
intros (Vy & Vy' & Vs & Vs' & Vt & Vt' & Vj & Vj' & Vp & Vp') Hk.
unfold upload. cbn [negb]. cbn zeta. unfold int_.
rewrite Vy, Vs. cbn [mbind result_bind]. rewrite Vp.
unfold bad_exam_year.
replace (m_exam_year m =? 0) with false by lia.
replace (m_exam_year m <? 2000) with false by lia. cbn [orb].
fold (kept files). destruct (kept files) as [|f fs] eqn:Ek; [congruence|].
cbn [negb]. rewrite <- Vj, <- Vt.
rewrite (bool_decide_eq_true_2 _ Vt'), (bool_decide_eq_true_2 _ Vy').
replace (1 <=? m_semester m) with true by lia.
replace (m_semester m <? 9) with true by lia.
replace (nonempty (m_subject m)) with true
  by (destruct (m_subject m); [congruence | reflexivity]).
cbn [negb orb andb default load_data store disk log].
destruct m; reflexivity.
Qed.
End UploadHandler.

(** ** The log *)

Lemma saves_app (l1 l2 : list event) :
  saves (l1 ++ l2) = (saves l1 + saves l2)%nat.
Proof. unfold saves. now rewrite List.filter_app, length_app. Qed.

Lemma saves_no_save (evs : list event) : no_save evs -> saves evs = 0%nat.
Proof.
  unfold saves. induction 1 as [|e evs He _ IH]; [reflexivity|].
  simpl. now rewrite He.
Qed.

(** ** Unique identifiers *)

Lemma ids_unique_append (data : list Paper.t) (r : Paper.t) :
  ids_unique data -> Paper.id r = next_id data -> ids_unique (data ++ [r]).
Proof.
  intros [Hnd Hpos] Hr. split.
  - rewrite map_app. cbn [map].
    apply NoDup_app_remove_l with (l := []). cbn [app].
    apply List.NoDup_rev in Hnd. rewrite <- (rev_involutive (map _ _ ++ _)).
    apply List.NoDup_rev. rewrite rev_app_distr. cbn [rev app].
    constructor; [|exact Hnd].
    rewrite <- in_rev. intros (p & Ep & Hp)%in_map_iff.
    pose proof (next_id_above data p Hp). lia.
  - apply Forall_app. split; [exact Hpos|]. constructor; [|constructor].
    rewrite Hr. now apply next_id_positive.
Qed.

Lemma ids_unique_filter (f : Paper.t -> bool) (data : list Paper.t) :
  ids_unique data -> ids_unique (List.filter f data).
Proof.
  intros [Hnd Hpos]. split.
  - induction data as [|p data IH]; [constructor|].
    cbn [map] in Hnd. inversion Hnd as [|? ? Hnotin Hnd']; subst.
    inversion Hpos; subst. cbn [List.filter].
    destruct (f p); [|now apply IH]. cbn [map]. constructor; [|now apply IH].
    intros (q & Eq & Hq)%in_map_iff. apply filter_In in Hq as [Hq _].
    apply Hnotin. rewrite <- Eq. now apply in_map.
  - rewrite List.Forall_forall in *. intros p [Hp _]%filter_In. now apply Hpos.
Qed.

Lemma heal_record_id (p : Paper.t) : Paper.id (fst (heal_record p)) = Paper.id p.
Proof.
  unfold heal_record. destruct (Paper.stored_path p); [|reflexivity].
  destruct (bool_decide _); reflexivity.
Qed.

(** ** normalize_data_paths *)

Lemma heal_unchanged (data : list Paper.t) :
  List.filter snd (map heal_record data) = [] ->
  map fst (map heal_record data) = data.
Proof.
  induction data as [|p data IH]; [reflexivity|]. cbn [map List.filter].
  destruct (snd (heal_record p)) eqn:E; [discriminate|]. intros Hf.
  cbn [map]. rewrite IH by exact Hf. f_equal.
  unfold heal_record in *. destruct (Paper.stored_path p); [|reflexivity].
  destruct (bool_decide _); [discriminate | reflexivity].
Qed.

(** The collection after the start-up pass. *)
Lemma normalize_data_paths_store (w : World) :
  store (fst (normalize_data_paths w))
  = map (fun p => fst (heal_record p)) (store w).
Proof.
  unfold normalize_data_paths, load_data. cbn zeta. cbn [store].
  rewrite <- (map_map heal_record fst).
  destruct (_ =? 0) eqn:E; [|reflexivity]. cbn [fst store].
  symmetry. apply heal_unchanged. apply Z.eqb_eq in E.
  destruct (List.filter snd _); [reflexivity | simpl in E; lia].
Qed.

Lemma heal_record_path (p : Paper.t) (sp : str) :
  Paper.stored_path (fst (heal_record p)) = Some sp ->
  exists sp0, Paper.stored_path p = Some sp0 /\ sp = heal_path sp0.
Proof.
  unfold heal_record. destruct (Paper.stored_path p) as [sp0|] eqn:E.
  - destruct (bool_decide (heal_path sp0 <> sp0)) eqn:D; cbn.
    + intros [= <-]. eauto.
    + rewrite E. intros [= <-]. exists sp0. split; [reflexivity|].
      apply bool_decide_eq_false in D.
      destruct (decide (heal_path sp0 = sp0)) as [e|n];
        [symmetry; exact e | contradiction].
  - cbn. rewrite E. discriminate.
Qed.

Lemma heal_record_healed (p : Paper.t) :
  (forall sp, Paper.stored_path p = Some sp -> BACKSLASH ∉ sp) ->
  heal_record p = (p, false).
Proof.
  intros Hp. unfold heal_record. destruct (Paper.stored_path p) as [sp|]; [|reflexivity].
  rewrite heal_path_without_backslash by now apply Hp.
  rewrite bool_decide_eq_false_2; [reflexivity | congruence].
Qed.

(** ** delete_paper *)

Section DeleteHandler.
Context `{Runtime}.

Lemma delete_paper_not_found (paper_id : Z) (next : option str) (w : World) :
(forall p, In p (store w) -> Paper.id p <> paper_id) ->
exists to,
  delete_paper true paper_id next w =
  (mkWorld (store w) (disk w) (log w ++ [EvLoad]),
   Redirect to [(MsgNotFound, warning)]).
Proof.
intros Hno. unfold delete_paper, load_data. cbn [negb]. cbn zeta.
destruct (List.find _ (store w)) as [p|] eqn:F.
- apply find_some in F as [Hp E%Z.eqb_eq]. now apply Hno in Hp.
- eexists. reflexivity.
Qed.

Lemma delete_paper_found (paper_id : Z) (next : option str) (w : World)
  (p : Paper.t) :
In p (store w) -> Paper.id p = paper_id ->
exists to evs fl d,
  delete_paper true paper_id next w =
  (mkWorld (without paper_id (store w)) d
     (log w ++ [EvLoad] ++ evs ++ [EvSave (without paper_id (store w))]),
   Redirect to (fl ++ [(MsgDeleted, success)]))
  /\ no_save evs
  /\ ((fl = [] /\ evs = [] /\ d = disk w)
      \/ (exists rel, unlink_error (length (log w ++ [EvLoad])) rel = None
                      /\ fl = [] /\ evs = [EvUnlink rel true]
                      /\ d = delete rel (disk w))
      \/ (exists rel e,
            unlink_error (length (log w ++ [EvLoad])) rel = Some e
            /\ fl = [(MsgCouldntRemove e, warning)]
            /\ evs = [EvUnlink rel false] /\ d = disk w)).
Proof.
intros Hp Hid. unfold delete_paper, load_data. cbn [negb]. cbn zeta.
destruct (List.find _ (store w)) as [q|] eqn:F.
2:{ eapply find_none in F; [|exact Hp]. cbn in F.
    apply Z.eqb_neq in F. contradiction. }
cbn [log disk store]. fold (without paper_id (store w)).
set (to := match py_or next [] with [] => ToPapersList | u => ToUrl u end).
set (rel := py_or (Paper.stored_path q) []).
destruct (nonempty rel) eqn:N.
- destruct (unlink_error _ rel) as [e|] eqn:U; unfold save_data;
    cbn [log disk store].
  + exists to, [EvUnlink rel false], [(MsgCouldntRemove e, warning)], (disk w).
    split; [rewrite <- !app_assoc; reflexivity|].
    split; [repeat constructor|]. right. right. now exists rel, e.
  + exists to, [EvUnlink rel true], [], (delete rel (disk w)).
    split; [rewrite <- !app_assoc; reflexivity|].
    split; [repeat constructor|]. right. left. now exists rel.
- unfold save_data; cbn [log disk store].
  exists to, [], [], (disk w).
  split; [rewrite <- !app_assoc; reflexivity|].
  split; [constructor|]. now left.
Qed.
End DeleteHandler.

(** ** Example data *)

(** ** The path normalisers, both application points *)

Lemma normalize_data_paths_healed (w : World) (p : Paper.t) (sp : str) :
  In p (store (fst (normalize_data_paths w))) ->
  Paper.stored_path p = Some sp -> BACKSLASH ∉ sp.
Proof.
  rewrite normalize_data_paths_store.
  intros (q & <- & _)%in_map_iff (sp0 & _ & ->)%heal_record_path.
  apply heal_path_no_backslash.
Qed.

Lemma normalize_data_paths_clean (w : World) :
  (forall p sp, In p (store w) -> Paper.stored_path p = Some sp ->
                BACKSLASH ∉ sp) ->
  normalize_data_paths w = (mkWorld (store w) (disk w) (log w ++ [EvLoad]), 0).
Proof.
  intros Hclean. unfold normalize_data_paths, load_data. cbn zeta.
  assert (E : map heal_record (store w) = map (fun p => (p, false)) (store w)).
  { apply map_ext_in. intros p Hp. apply heal_record_healed.
    intros sp. now apply Hclean. }
  rewrite E.
  assert (F : List.filter snd (map (fun p : Paper.t => (p, false)) (store w)) = []).
  { clear. generalize (store w). intros l.
    induction l as [|p l IH]; [reflexivity | exact IH]. }
  rewrite F. reflexivity.
Qed.

(** C5 (amended).  Both normalisers return a path without backslashes and
    send a\b\\c to a/b/c.  The start-up healer is idempotent but keeps
    leading and doubled forward slashes; after the start-up pass no stored
    path holds a backslash and a second pass changes nothing.  The
    file-serving normaliser never returns a leading slash, and on a path
    with no three separators in a row its result has no doubled slash and
    is a fixed point. *)
Theorem path_normalizers_amended :
  heal_path (lit "a\b\\c") = lit "a/b/c"
  /\ serve_path (lit "a\b\\c") = lit "a/b/c"
  /\ (forall s, (BACKSLASH ∉ heal_path s)
                /\ heal_path (heal_path s) = heal_path s)
  /\ (forall s, (BACKSLASH ∉ serve_path s)
                /\ forall r, serve_path s <> SLASH :: r)
  /\ (forall s, ~ triple_sep s ->
                ~ occurs [SLASH; SLASH] (serve_path s)
                /\ serve_path (serve_path s) = serve_path s)
  /\ (forall w, let w1 := fst (normalize_data_paths w) in
        (forall p sp, In p (store w1) -> Paper.stored_path p = Some sp ->
                      BACKSLASH ∉ sp)
        /\ normalize_data_paths w1
           = (mkWorld (store w1) (disk w1) (log w1 ++ [EvLoad]), 0))
  /\ (forall relpath w,
        serve_file relpath w = (w, SendFromDirectory (serve_path relpath))).
Proof.
  split; [vm_compute; reflexivity|].
  split; [vm_compute; reflexivity|].
  split.
  { intros s. split; [apply heal_path_no_backslash|].
    apply heal_path_without_backslash, heal_path_no_backslash. }
  split.
  { intros s. split; [apply serve_path_no_backslash|].
    apply serve_path_no_leading_slash. }
  split.
  { intros s Hs. pose proof (serve_path_collapsed s Hs) as Hc.
    split; [exact Hc|]. apply serve_path_fixed.
    - apply serve_path_no_backslash.
    - exact Hc.
    - apply serve_path_no_leading_slash. }
  split; [|reflexivity].
  intros w w1. split.
  - intros p sp. apply normalize_data_paths_healed.
  - apply normalize_data_paths_clean. intros p sp.
    apply normalize_data_paths_healed.
Qed.

Lemma path_normalizers_amended_witness :
  ~ occurs [SLASH; SLASH] (serve_path (lit "up\\load/a.pdf"))
  /\ serve_path (serve_path (lit "up\\load/a.pdf"))
     = serve_path (lit "up\\load/a.pdf").
Proof.
  apply path_normalizers_amended.
  intros (a & x & y & z & b & E & Hx & Hy & Hz).
  assert (Hsep : forall c, is_sep c -> c = 47 \/ c = 92) by (intros c Hc; exact Hc).
  apply Hsep in Hx, Hy, Hz.
  do 14 (destruct a as [|? a]; [cbn in E; injection E; intros; subst; lia|];
         cbn in E; injection E as <- E).
  destruct a; discriminate.
Defined.

(** C5, as stated, fails at both application points: the start-up healer
    keeps a leading slash and a doubled forward slash, and the file-serving
    normaliser is not idempotent on three separators in a row. *)
Lemma path_normalizers_counterexample :
  heal_path (lit "\a") = lit "/a"
  /\ heal_path (lit "a//b") = lit "a//b"
  /\ serve_path (lit "a///b") = lit "a//b"
  /\ serve_path (serve_path (lit "a///b")) = lit "a/b"
  /\ serve_path (serve_path (lit "a///b")) <> serve_path (lit "a///b").
Proof.
  repeat apply conj; try (vm_compute; reflexivity).
  vm_compute. discriminate.
Qed.

(** ** C1: next_id *)

(** C1 (amended).  next_id is the greatest id plus one, 1 on the empty
    collection and 8 on ids 3 and 7; it is above every id in use, and
    deleting a record below the greatest id leaves it unchanged.  Ids are
    recycled when the record with the greatest id is deleted: after
    removing 7 from {3, 7} the next id is 4. *)
Theorem next_id_amended :
  next_id [] = 1
  /\ next_id (map example_paper [3; 7]) = 8
  /\ (forall data, data <> [] ->
        exists p, In p data /\ next_id data = Paper.id p + 1
                  /\ forall q, In q data -> Paper.id q <= Paper.id p)
  /\ (forall data p, In p data -> Paper.id p < next_id data)
  /\ (forall data k q, In q data -> k < Paper.id q ->
        next_id (without k data) = next_id data)
  /\ next_id (without 7 (map example_paper [3; 7])) = 4.
Proof.
  split; [reflexivity|].
  split; [vm_compute; reflexivity|].
  split.
  { intros data Hne. unfold next_id.
    assert (Hm : map Paper.id data <> []) by (destruct data; [congruence | discriminate]).
    destruct (proj1 (py_max_spec (map Paper.id data) 0 _ Hm) eq_refl)
      as [(p & Ep & Hp)%in_map_iff Hall].
    exists p. split; [exact Hp|]. split; [now rewrite Ep|].
    intros q Hq. rewrite Ep. rewrite List.Forall_forall in Hall.
    apply Hall. now apply in_map. }
  split; [apply next_id_above|].
  split; [apply next_id_without_lower|].
  vm_compute. reflexivity.
Qed.

Lemma next_id_amended_witness :
  next_id (without 3 (map example_paper [3; 7])) = next_id (map example_paper [3; 7]).
Proof.
  apply (proj1 (proj2 (proj2 (proj2 (proj2 next_id_amended))))
           (map example_paper [3; 7]) 3 (example_paper 7)).
  - right. left. reflexivity.
  - reflexivity.
Defined.

(** C1, as stated, fails: with records 3 and 7, deleting 7 and uploading
    one file gives the new record id 4, not 8. *)
Lemma next_id_counterexample :
  let w1 := fst (@delete_paper example_runtime true 7 None
                   (example_world [3; 7])) in
  let w2 := fst (@upload example_runtime true POST example_form
                   [mkFile (lit "new.pdf") [1; 2; 3]] w1) in
  map Paper.id (store w1) = [3]
  /\ next_id (store w1) = 4
  /\ map Paper.id (store w2) = [3; 4]
  /\ next_id (store w1) <> 8.
Proof.
  repeat apply conj; try (vm_compute; reflexivity).
  vm_compute. discriminate.
Qed.

(** ** C8: delete_paper *)

(** C8.  For an administrator's request: when no record has the id the
    handler reports "not found" and neither the collection, the files nor
    the number of saves change; when a record has it, every record with
    that id leaves the collection, the others stay, and the collection is
    saved once, as the last operation, whatever the unlink did.  A warning
    is flashed only when the unlink raised, and then the files are
    untouched. *)
Theorem delete_paper_contract `{Runtime} (paper_id : Z) (next : option str)
    (w : World) :
  let w' := fst (delete_paper true paper_id next w) in
  let r := snd (delete_paper true paper_id next w) in
  ((forall p, In p (store w) -> Paper.id p <> paper_id) ->
     store w' = store w /\ disk w' = disk w
     /\ saves (log w') = saves (log w)
     /\ exists to, r = Redirect to [(MsgNotFound, warning)])
  /\ ((exists p, In p (store w) /\ Paper.id p = paper_id) ->
      store w' = without paper_id (store w)
      /\ (forall q, In q (store w') <->
                    In q (store w) /\ Paper.id q <> paper_id)
      /\ saves (log w') = S (saves (log w))
      /\ last (log w') = Some (EvSave (store w'))
      /\ exists to fl, r = Redirect to (fl ++ [(MsgDeleted, success)])
         /\ ((fl = [] /\ exists rel, disk w' = delete rel (disk w))
             \/ (fl = [] /\ disk w' = disk w)
             \/ (exists rel e,
                   unlink_error (length (log w ++ [EvLoad])) rel = Some e
                   /\ fl = [(MsgCouldntRemove e, warning)]
                   /\ disk w' = disk w))).
Proof.
  cbn zeta. split.
  - intros Hno. destruct (delete_paper_not_found paper_id next w Hno) as [to E].
    rewrite E. cbn [fst snd store disk log].
    rewrite saves_app. cbn. repeat apply conj; try reflexivity; [lia | now exists to].
  - intros (p & Hp & Hid).
    destruct (delete_paper_found paper_id next w p Hp Hid)
      as (to & evs & fl & d & E & Hevs & Hcase).
    rewrite E. cbn [fst snd store disk log].
    split; [reflexivity|]. split.
    { intros q. unfold without. rewrite filter_In, negb_true_iff, Z.eqb_neq.
      reflexivity. }
    split.
    { rewrite !saves_app, (saves_no_save evs Hevs). cbn. lia. }
    split.
    { rewrite !app_assoc. apply last_snoc. }
    exists to, fl. split; [reflexivity|].
    destruct Hcase as [(-> & _ & ->)|[(rel & _ & -> & _ & ->)|(rel & e & U & -> & _ & ->)]].
    + right. left. now split.
    + left. split; [reflexivity | now exists rel].
    + right. right. now exists rel, e.
Qed.

(** ** C9: identifiers stay unique *)

Lemma ids_unique_same_ids (d1 d2 : list Paper.t) :
  map Paper.id d1 = map Paper.id d2 -> ids_unique d1 -> ids_unique d2.
Proof.
  intros E [Hnd Hpos]. split; [now rewrite <- E|].
  apply (List.Forall_map Paper.id (fun i => 0 < i)).
  rewrite <- E. now apply (List.Forall_map Paper.id (fun i => 0 < i)).
Qed.

Section Invariant.
Context `{Runtime}.

Lemma upload_file_ids (m : Meta) (b : Batch) (f : FileStorage) :
ids_unique (b_data b) -> ids_unique (b_data (upload_file m b f)).
Proof.
intros Hu. destruct (accepts m b f) eqn:A.
- destruct (upload_file_saves m b f A) as ([at_ E] & _). rewrite E.
  now apply ids_unique_append.
- destruct (upload_file_skips m b f A) as (E & _). now rewrite E.
Qed.

Lemma upload_files_ids (m : Meta) (fs : list FileStorage) (b : Batch) :
ids_unique (b_data b) -> ids_unique (b_data (upload_files m b fs)).
Proof.
revert b. induction fs as [|f fs IH]; intros b Hu; [exact Hu|].
apply (IH (upload_file m b f)). now apply upload_file_ids.
Qed.

Lemma handle_ids (r : request) (w : World) :
ids_unique (store w) -> ids_unique (store (fst (handle r w))).
Proof.
intros Hu. destruct r as [|args|a meth form files|a paper_id next|relpath];
  cbn [handle].
- pose proof (normalize_data_paths_store w) as S.
  destruct (normalize_data_paths w) as [w1 changed].
  cbn [fst] in *. rewrite S.
  eapply ids_unique_same_ids; [|exact Hu].
  rewrite map_map. apply map_ext. intros p. symmetry. apply heal_record_id.
- exact Hu.
- destruct (upload_cases a meth form files w)
    as [E|(-> & -> & Hk & m & V)]; [now rewrite E|].
  rewrite (upload_accepts form m files w V Hk). cbn [fst save_data store].
  now apply upload_files_ids.
- destruct a; [|exact Hu].
  destruct (List.find (fun p => Paper.id p =? paper_id) (store w))
    as [p|] eqn:F.
  + apply find_some in F as [Hp E%Z.eqb_eq].
    destruct (delete_paper_found paper_id next w p Hp E)
      as (to & evs & fl & d & -> & _).
    cbn [fst store]. now apply ids_unique_filter.
  + destruct (delete_paper_not_found paper_id next w) as [to ->]; [|exact Hu].
    intros p Hp. eapply find_none in F; [|exact Hp]. cbn in F.
    now apply Z.eqb_neq.
- exact Hu.
Qed.
End Invariant.

(** C9.  If the ids of the collection are positive and pairwise distinct,
    they still are after any sequence of requests.  In a batch upload each
    saved file gets the id next_id of the collection at that moment, which
    no record of the collection has, so the ids given within one batch
    differ from each other and from the earlier ones; removal keeps the ids
    distinct. *)
Theorem ids_stay_unique `{Runtime} (rs : list request) (w : World) :
  ids_unique (store w) ->
  ids_unique (store (run rs w))
  /\ (forall m b f, accepts m b f = true ->
        exists at_,
          b_data (upload_file m b f)
          = b_data b ++ [record_for m (b_data b) f at_]
          /\ Paper.id (record_for m (b_data b) f at_) = next_id (b_data b)
          /\ ~ In (next_id (b_data b)) (map Paper.id (b_data b)))
  /\ (forall m b fs, ids_unique (b_data b) ->
        ids_unique (b_data (upload_files m b fs)))
  /\ (forall k data, ids_unique data -> ids_unique (without k data)).
Proof.
  intros Hu. split.
  { revert w Hu. induction rs as [|r rs IH]; intros w Hu; [exact Hu|].
    apply (IH (fst (handle r w))). now apply handle_ids. }
  split.
  { intros m b f A. destruct (upload_file_saves m b f A) as ([at_ E] & _).
    exists at_. split; [exact E|]. split; [reflexivity|].
    intros (p & Ep & Hp)%in_map_iff.
    pose proof (next_id_above _ p Hp). lia. }
  split; [intros m b fs; apply upload_files_ids|].
  intros k data. apply ids_unique_filter.
Qed.

Lemma ids_stay_unique_witness :
  ids_unique
    (store (@run example_runtime
              [DeletePaper true 7 None;
               Upload true POST example_form
                 [mkFile (lit "a.pdf") [1]; mkFile (lit "b.pdf") [2]]]
              (example_world [3; 7]))).
Proof.
  apply (@ids_stay_unique example_runtime).
  split.
  - cbn. constructor; [intros [E|[]]; discriminate|].
    constructor; [intros []|constructor].
  - cbn. repeat constructor.
Defined.

(** ** C7 and C2: upload *)

Section UploadTheorems.
Context `{Runtime}.


Lemma upload_world (form : Form) (m : Meta) (files : list FileStorage)
  (w : World) :
validated form m -> kept files <> [] ->
let b := upload_files m (batch_start m w) (kept files) in
let w' := fst (upload true POST form files w) in
store w' = b_data b
/\ disk w' = disk (b_world b)
/\ saved_count b + skipped_count b = Z.of_nat (length (kept files))
/\ (exists added, store w' = store w ++ added
                  /\ Z.of_nat (length added) = saved_count b)
/\ (exists evs,
      log w' = log w ++ [EvMkdir (target_dir m); EvLoad] ++ evs
                     ++ [EvSave (store w')]
      /\ no_save evs).
Proof.
intros V Hk. cbn zeta. rewrite (upload_accepts form m files w V Hk).
cbn [fst save_data store disk log].
destruct (upload_files_counts m (kept files) (batch_start m w))
  as (C1 & C2 & _ & _ & _ & _ & [added C7] & (evs & C8 & C9)).
cbn [batch_start saved_count skipped_count b_data b_world log length] in *.
split; [reflexivity|]. split; [reflexivity|]. split; [lia|]. split.
- exists added. split; [exact C7|]. rewrite C7, length_app in C2. lia.
- exists evs. split; [|exact C9]. rewrite C8, <- !app_assoc. reflexivity.
Qed.
End UploadTheorems.





(** ** Orders and sorting *)

Lemma lex_total_cmp {A B : Type} (ca : A -> A -> comparison)
    (cb : B -> B -> comparison) :
  total_cmp ca -> total_cmp cb -> total_cmp (lex ca cb).
Proof.
  intros [ea ra oa ta] [eb rb ob tb]. split.
  - intros [a1 b1] [a2 b2]. unfold lex. cbn.
    destruct (ca a1 a2) eqn:E; try discriminate.
    intros E'. apply ea in E. apply eb in E'. congruence.
  - intros [a b]. unfold lex. cbn. now rewrite ra.
  - intros [a1 b1] [a2 b2]. unfold lex. cbn. rewrite (oa a1 a2).
    destruct (ca a1 a2); cbn; auto.
  - intros [a1 b1] [a2 b2] [a3 b3]. unfold lex. cbn.
    destruct (ca a1 a2) eqn:E12; try discriminate;
      destruct (ca a2 a3) eqn:E23; try discriminate.
    + apply ea in E12, E23. subst. rewrite ra. apply tb.
    + apply ea in E12. subst. now rewrite E23.
    + apply ea in E23. subst. now rewrite E12.
    + now rewrite (ta _ _ _ E12 E23).
Qed.

Lemma Z_total_cmp : total_cmp Z.compare.
Proof.
  split.
  - apply Z.compare_eq.
  - apply Z.compare_refl.
  - intros a b. apply Z.compare_antisym.
  - intros a b c. rewrite !Z.compare_lt_iff. lia.
Qed.

Lemma str_total_cmp : total_cmp str_compare.
Proof.
  split.
  - induction a as [|x a IH]; intros [|y b]; cbn; try discriminate; [reflexivity|].
    destruct (x ?= y) eqn:E; try discriminate.
    apply Z.compare_eq in E. intros E'%IH. congruence.
  - induction a as [|x a IH]; cbn; [reflexivity|]. now rewrite Z.compare_refl.
  - induction a as [|x a IH]; intros [|y b]; cbn; try reflexivity.
    rewrite (Z.compare_antisym x y). destruct (x ?= y); cbn; auto.
  - induction a as [|x a IH]; intros [|y b] [|z c]; cbn; try discriminate;
      try reflexivity.
    destruct (x ?= y) eqn:E12; try discriminate;
      destruct (y ?= z) eqn:E23; try discriminate.
    + apply Z.compare_eq in E12, E23. subst. rewrite Z.compare_refl. apply IH.
    + apply Z.compare_eq in E12. subst. now rewrite E23.
    + apply Z.compare_eq in E23. subst. now rewrite E12.
    + rewrite Z.compare_lt_iff in *.
      replace (x ?= z) with Lt by (symmetry; apply Z.compare_lt_iff; lia).
      reflexivity.
Qed.

Lemma key_compare_lex (a b : Z * str * str) :
  key_compare a b = lex (lex Z.compare str_compare) str_compare a b.
Proof.
  destruct a as [[a1 a2] a3], b as [[b1 b2] b3]. unfold key_compare, lex. cbn.
  destruct (a1 ?= b1); reflexivity.
Qed.

Lemma key_total_cmp : total_cmp key_compare.
Proof.
  pose proof (lex_total_cmp _ _ (lex_total_cmp _ _ Z_total_cmp str_total_cmp)
                str_total_cmp) as [e r o t].
  split.
  - intros a b. rewrite key_compare_lex. apply e.
  - intros a. rewrite key_compare_lex. apply r.
  - intros a b. rewrite !key_compare_lex. apply o.
  - intros a b c. rewrite !key_compare_lex. apply t.
Qed.



Section Sorting.
Context {A : Type} (le : A -> A -> bool).
Hypothesis le_total : forall x y, le x y = false -> le y x = true.
Hypothesis le_trans : forall x y z, le x y = true -> le y z = true -> le x z = true.




End Sorting.

(** ** C6 and C10: papers_list *)


Section Listing.
Context `{Runtime}.

End Listing.



(** C10.  A year (or semester) parameter that, once stripped, int() does
    not accept is treated as if it had not been given: the listing returns
    the same response as without it, and it always renders the page. *)
Theorem papers_list_ignores_bad_numbers `{Runtime} (args : ListArgs)
    (w : World) (s : str) :
  py_int (strip s) = None ->
  papers_list (mkArgs (Some s) (arg_semester args) (arg_subject args)
                      (arg_exam_type args)) w
  = papers_list (mkArgs None (arg_semester args) (arg_subject args)
                        (arg_exam_type args)) w
  /\ papers_list (mkArgs (arg_year args) (Some s) (arg_subject args)
                         (arg_exam_type args)) w
     = papers_list (mkArgs (arg_year args) None (arg_subject args)
                           (arg_exam_type args)) w
  /\ exists ctx,
       snd (papers_list (mkArgs (Some s) (Some s) (arg_subject args)
                                (arg_exam_type args)) w)
       = RenderPapers ctx.
Proof.
  intros Hs.
  assert (E : int_or_none (strip (py_or (Some s) [])) = int_or_none (strip [])).
  { assert (E0 : py_or (Some s) [] = s) by (destruct s; reflexivity).
    rewrite E0. unfold int_or_none, int_. rewrite Hs.
    destruct (nonempty (strip s)); reflexivity. }
  unfold papers_list, load_data. cbn zeta.
  cbn [arg_year arg_semester arg_subject arg_exam_type].
  rewrite E. cbn [py_or].
  split; [reflexivity|]. split; [reflexivity|].
  eexists. reflexivity.
Qed.

Lemma papers_list_ignores_bad_numbers_witness :
  @papers_list example_runtime (mkArgs (Some (lit "abc")) None None None)
    (example_world [3; 7])
  = @papers_list example_runtime (mkArgs None None None None)
      (example_world [3; 7]).
Proof.
  apply (@papers_list_ignores_bad_numbers example_runtime
           (mkArgs None None None None) (example_world [3; 7]) (lit "abc")).
  vm_compute. reflexivity.
Defined.

Lemma parse_exam_year_recognizes_witness :
  parse_exam_year (Some (lit " 2024 - 25 "))
  = Ok (Some (decimal_value (lit "2024")),
        Some (py_str (decimal_value (lit "2024")) ++ [HYPHEN]
              ++ py_str (end_year (decimal_value (lit "2024")) (lit "25")))).
Proof.
  apply (proj1 parse_exam_year_recognizes (Some (lit " 2024 - 25 "))).
  unfold year_range, all_decimal.
  split; [vm_compute; reflexivity|].
  split; [reflexivity|].
  split; [repeat constructor|].
  split; [left; reflexivity | repeat constructor].
Defined.

Lemma delete_paper_contract_witness :
  store (fst (@delete_paper example_runtime true 7 None (example_world [3; 7])))
  = without 7 (store (example_world [3; 7])).
Proof.
  apply (@delete_paper_contract example_runtime 7 None (example_world [3; 7])).
  exists (example_paper 7). split; [right; left; reflexivity | reflexivity].
Defined.

(* ===================================================================== *)
(** * Further properties of the code *)
(* ===================================================================== *)

(** ** allowed_file *)

Lemma after_last_none (d : Z) (s : str) :
  after_last d s = None <-> d ∉ s.
Proof.
  induction s as [|c s IH]; cbn.
  - split; [intros _; apply not_elem_of_nil | reflexivity].
  - rewrite not_elem_of_cons, <- IH.
    destruct (after_last d s); [split; [discriminate | intros [_ ?]; discriminate]|].
    destruct (Z.eqb_spec c d) as [->|Hc].
    + split; [discriminate | intros [? _]; congruence].
    + split; [intros _; split; congruence | reflexivity].
Qed.

Lemma after_last_app (d : Z) (a t : str) :
  d ∉ t -> after_last d (a ++ d :: t) = Some t.
Proof.
  intros Hn. induction a as [|c a IH]; cbn.
  - rewrite (proj2 (after_last_none d t) Hn), Z.eqb_refl. reflexivity.
  - now rewrite IH.
Qed.

Lemma after_last_spec (d : Z) (s t : str) :
  after_last d s = Some t <-> exists a, s = a ++ d :: t /\ d ∉ t.
Proof.
  split.
  - revert t. induction s as [|c s IH]; intros t; cbn; [discriminate|].
    destruct (after_last d s) as [t'|] eqn:E.
    + intros [= <-]. destruct (IH t' eq_refl) as (a & -> & Hn).
      now exists (c :: a).
    + destruct (Z.eqb_spec c d) as [->|Hc]; [|discriminate].
      intros [= <-]. exists []. split; [reflexivity|].
      now apply after_last_none.
  - intros (a & -> & Hn). now apply after_last_app.
Qed.

(** X1.  A file name is allowed exactly when it has a dot and the part
    after its last dot, lower-cased, is pdf, jpg, jpeg or png; for an ASCII
    extension the case of its letters does not matter, and a name without a
    dot is refused. *)
Theorem allowed_file_last_extension `{Runtime} (filename : str) :
  (allowed_file filename = true <->
   exists stem ext,
     filename = stem ++ [DOT] ++ ext /\ (DOT ∉ ext)
     /\ str_lower ext ∈ ALLOWED_EXTENSIONS)
  /\ (forall stem ext,
        DOT ∉ ext -> Forall is_ascii ext ->
        allowed_file (stem ++ [DOT] ++ ext)
        = bool_decide (map ascii_lower ext ∈ ALLOWED_EXTENSIONS))
  /\ (DOT ∉ filename -> allowed_file filename = false).
Proof.
  split; [|split].
  - unfold allowed_file.
    destruct (after_last DOT filename) as [ext|] eqn:E.
    + apply after_last_spec in E as (stem & -> & Hn).
      rewrite bool_decide_eq_true. split.
      * intros Hin. now exists stem, ext.
      * intros (stem' & ext' & E' & Hn' & Hin).
        assert (after_last DOT (stem ++ DOT :: ext) = Some ext')
          by (apply after_last_spec; rewrite E'; eauto).
        assert (after_last DOT (stem ++ DOT :: ext) = Some ext)
          by (apply after_last_spec; eauto).
        congruence.
    + split; [discriminate|]. intros (stem & ext & -> & Hn & _).
      assert (after_last DOT (stem ++ [DOT] ++ ext) = Some ext)
        by (apply after_last_spec; eauto).
      congruence.
  - intros stem ext Hn Ha. unfold allowed_file.
    rewrite (proj2 (after_last_spec DOT (stem ++ [DOT] ++ ext) ext))
      by eauto.
    now rewrite str_lower_ascii.
  - intros Hn. unfold allowed_file.
    destruct (after_last DOT filename) as [ext|] eqn:E; [|reflexivity].
    apply after_last_spec in E as (stem & -> & _).
    exfalso. apply Hn. apply elem_of_app. right. left.
Qed.

Lemma allowed_file_last_extension_witness :
  @allowed_file example_runtime (lit "notes.final.PDF") = true
  /\ @allowed_file example_runtime (lit "notes.pdf.exe") = false.
Proof.
  split.
  - apply (proj1 (@allowed_file_last_extension example_runtime
                    (lit "notes.final.PDF"))).
    exists (lit "notes.final"), (lit "PDF").
    split; [reflexivity|]. split; [|vm_compute; left].
    intros Hin. apply list_elem_of_In in Hin. cbn in Hin.
    repeat (destruct Hin as [Hin|Hin]; [discriminate|]). exact Hin.
  - change (lit "notes.pdf.exe") with (lit "notes.pdf" ++ [DOT] ++ lit "exe").
    rewrite (proj1 (proj2 (@allowed_file_last_extension example_runtime
                             (lit "notes.pdf.exe")))
               (lit "notes.pdf") (lit "exe")).
    + reflexivity.
    + intros Hin. apply list_elem_of_In in Hin. cbn in Hin.
      repeat (destruct Hin as [Hin|Hin]; [discriminate|]). exact Hin.
    + repeat constructor; cbn; lia.
Defined.

(** ** year_to_semesters and year_page *)

Lemma year_to_semesters_cases (year : Z) :
  (1 <= year <= 4 /\ year_to_semesters year = [2 * year - 1; 2 * year])
  \/ (~ 1 <= year <= 4 /\ year_to_semesters year = []).
Proof.
  unfold year_to_semesters, SEMESTERS.
  destruct (decide (year = 1)) as [->|N1];
    [left; split; [lia | reflexivity]|].
  rewrite lookup_insert_ne by congruence.
  destruct (decide (year = 2)) as [->|N2];
    [left; split; [lia | reflexivity]|].
  rewrite lookup_insert_ne by congruence.
  destruct (decide (year = 3)) as [->|N3];
    [left; split; [lia | reflexivity]|].
  rewrite lookup_insert_ne by congruence.
  destruct (decide (year = 4)) as [->|N4];
    [left; split; [lia | reflexivity]|].
  rewrite lookup_insert_ne by congruence.
  right. split; [lia | reflexivity].
Qed.

(** X2.  Year y of 1..4 has the semesters 2y-1 and 2y and every other year
    has none, so each semester 1..8 belongs to exactly one year; the year
    page is rendered with these two semesters for 1..4 and redirects to the
    index with "Invalid year." otherwise. *)
Theorem year_page_semesters (year : Z) :
  (forall s, In s (year_to_semesters year) <->
             1 <= year <= 4 /\ (s = 2 * year - 1 \/ s = 2 * year))
  /\ (forall s, 1 <= s <= 8 ->
        In s (year_to_semesters ((s + 1) / 2))
        /\ forall y, In s (year_to_semesters y) -> y = (s + 1) / 2)
  /\ (1 <= year <= 4 ->
      year_page year = RenderYear year [2 * year - 1; 2 * year])
  /\ (~ 1 <= year <= 4 ->
      year_page year = RedirectIndex [(MsgInvalidYear, warning)]).
Proof.
  assert (Hin : forall y s, In s (year_to_semesters y) <->
                  1 <= y <= 4 /\ (s = 2 * y - 1 \/ s = 2 * y)).
  { intros y s. destruct (year_to_semesters_cases y) as [[Hy ->]|[Hy ->]]; cbn.
    - intuition lia.
    - intuition lia. }
  split; [apply Hin|]. split; [|split].
  - intros s Hs. split.
    + apply Hin. pose proof (Z.div_mod (s + 1) 2).
      pose proof (Z.mod_pos_bound (s + 1) 2). lia.
    + intros y [Hy Hsy]%Hin.
      destruct Hsy as [-> | ->].
      * replace (2 * y - 1 + 1) with (y * 2) by lia.
        now rewrite Z.div_mul.
      * replace (2 * y + 1) with (1 + y * 2) by lia.
        rewrite Z.div_add by lia. reflexivity.
  - intros Hy. unfold year_page.
    destruct (year_to_semesters_cases year) as [[_ ->]|[Hn _]];
      [reflexivity | contradiction].
  - intros Hy. unfold year_page.
    destruct (year_to_semesters_cases year) as [[Hn _]|[_ ->]];
      [contradiction | reflexivity].
Qed.

Lemma year_page_semesters_witness :
  year_page 3 = RenderYear 3 [2 * 3 - 1; 2 * 3]
  /\ year_page 5 = RedirectIndex [(MsgInvalidYear, warning)].
Proof.
  split.
  - apply (year_page_semesters 3). lia.
  - apply (year_page_semesters 5). lia.
Defined.

(** ** sorted(set(...)) *)

Lemma insert_uniq_in (x y : list Z) (l : list (list Z)) :
  In y (insert_uniq x l) <-> y = x \/ In y l.
Proof.
  pose proof str_total_cmp as [e r o t].
  induction l as [|z l IH]; cbn; [intuition|].
  destruct (str_compare x z) eqn:E; cbn.
  - apply e in E. subst. intuition.
  - intuition.
  - rewrite IH. intuition.
Qed.

Lemma sorted_set_in (y : list Z) (l : list (list Z)) :
  In y (sorted_set l) <-> In y l.
Proof.
  induction l as [|x l IH]; cbn; [reflexivity|].
  rewrite insert_uniq_in, IH. intuition.
Qed.

Lemma insert_uniq_sorted (x : list Z) (l : list (list Z)) :
  StronglySorted (fun a b => str_compare a b = Lt) l ->
  StronglySorted (fun a b => str_compare a b = Lt) (insert_uniq x l).
Proof.
  pose proof str_total_cmp as [e r o t].
  induction 1 as [|z l Hs IH Hz]; cbn; [repeat constructor|].
  destruct (str_compare x z) eqn:E.
  - now constructor.
  - constructor; [now constructor|]. constructor; [exact E|].
    eapply List.Forall_impl; [|exact Hz]. intros a. now apply t.
  - constructor; [exact IH|].
    apply List.Forall_forall. intros a [->|Ha]%insert_uniq_in.
    + rewrite (o x z), E. reflexivity.
    + rewrite List.Forall_forall in Hz. now apply Hz.
Qed.

Lemma sorted_set_sorted (l : list (list Z)) :
  StronglySorted (fun a b => str_compare a b = Lt) (sorted_set l).
Proof.
  induction l as [|x l IH]; cbn; [constructor|]. now apply insert_uniq_sorted.
Qed.

(** X3.  The semester page lists the subjects of the records with that
    year and semester, each once, in strictly increasing order; it only
    reads the collection. *)
Theorem semester_page_subjects (year semester : Z) (w : World) :
  exists subjects,
    semester_page year semester w
    = (mkWorld (store w) (disk w) (log w ++ [EvLoad]),
       RenderSemester year semester subjects)
    /\ StronglySorted (fun a b => str_compare a b = Lt) subjects
    /\ List.NoDup subjects
    /\ forall s, In s subjects <->
         exists p, In p (store w) /\ Paper.year p = year
                   /\ Paper.semester p = semester /\ Paper.subject p = s.
Proof.
  eexists. split; [reflexivity|].
  split; [apply sorted_set_sorted|]. split.
  - pose proof str_total_cmp as [e r o t].
    generalize (sorted_set_sorted
                  (map Paper.subject
                     (List.filter (fun p => (Paper.year p =? year)
                                            && (Paper.semester p =? semester))
                        (store w)))).
    induction 1 as [|z l Hs IH Hz]; constructor; [|exact IH].
    intros Hin. rewrite List.Forall_forall in Hz. specialize (Hz _ Hin).
    rewrite r in Hz. discriminate.
  - intros s. rewrite sorted_set_in, in_map_iff. split.
    + intros (p & <- & [Hp Hc]%filter_In).
      apply andb_true_iff in Hc as [Hy%Z.eqb_eq Hs%Z.eqb_eq]. now exists p.
    + intros (p & Hp & Hy & Hs & <-). exists p. split; [reflexivity|].
      apply filter_In. split; [exact Hp|].
      apply andb_true_iff. now rewrite !Z.eqb_eq.
Qed.


(** ** The admin gate *)

Lemma dispatch_without_login `{Runtime} (upload_password : str)
    (r : http_request) (a : App) :
  session_is_admin (session a) = false ->
  ~ logs_in upload_password r ->
  let a' := fst (dispatch upload_password r a) in
  session_is_admin (session a') = false
  /\ store (world a') = store (world a)
  /\ disk (world a') = disk (world a)
  /\ saves (log (world a')) = saves (log (world a)).
Proof.
  intros Ha Hr. destruct r as [|year|year semester|args|meth password next|
                               |meth form files|paper_id next|relpath];
    cbn [dispatch].
  - cbn. auto.
  - cbn. auto.
  - unfold semester_page, load_data. cbn [fst world session store disk log].
    rewrite saves_app. cbn. repeat apply conj; auto; lia.
  - unfold papers_list, load_data. cbn [fst world session store disk log].
    rewrite saves_app. cbn. repeat apply conj; auto; lia.
  - unfold admin_login. destruct meth; [cbn; auto|].
    cbn [logs_in] in Hr. unfold str_eqb.
    rewrite bool_decide_eq_false_2 by exact Hr. cbn. auto.
  - cbn. unfold session_is_admin. rewrite lookup_delete_eq. cbn. auto.
  - rewrite Ha. cbn. auto.
  - rewrite Ha. cbn. auto.
  - cbn. auto.
Qed.

(** X5.  A client that is not logged in and never posts the configured
    password (compared after stripping white space) cannot change
    anything: after any sequence of its requests it is still not an
    administrator, the collection and the files are as before and the
    collection has not been saved. *)
Theorem no_login_no_change `{Runtime} (upload_password : str)
    (rs : list http_request) (a : App) :
  session_is_admin (session a) = false ->
  Forall (fun r => ~ logs_in upload_password r) rs ->
  let a' := serve upload_password rs a in
  session_is_admin (session a') = false
  /\ store (world a') = store (world a)
  /\ disk (world a') = disk (world a)
  /\ saves (log (world a')) = saves (log (world a)).
Proof.
  intros Ha Hrs. revert a Ha.
  induction Hrs as [|r rs Hr _ IH]; intros a Ha; [cbn; auto|].
  destruct (dispatch_without_login upload_password r a Ha Hr)
    as (D1 & D2 & D3 & D4).
  cbn zeta in *. cbn [serve fold_left].
  destruct (IH (fst (dispatch upload_password r a)) D1) as (I1 & I2 & I3 & I4).
  unfold serve in *. rewrite I2, I3, I4. auto.
Qed.

Lemma no_login_no_change_witness :
  let a := mkApp ∅ (example_world [3; 7]) in
  let a' := @serve example_runtime (lit "odisha123")
              [ANY_admin_login POST (Some (lit "guess")) None;
               ANY_upload POST example_form [mkFile (lit "a.pdf") [1]];
               POST_delete 7 None; GET_admin_logout;
               GET_papers (mkArgs None None None None)] a in
  session_is_admin (session a') = false
  /\ store (world a') = store (world a)
  /\ disk (world a') = disk (world a)
  /\ saves (log (world a')) = saves (log (world a)).
Proof.
  intros a. apply (@no_login_no_change example_runtime).
  - reflexivity.
  - repeat constructor; cbn; try tauto.
    vm_compute. discriminate.
Defined.



(** ** Fixed points of the two normalisers *)

Lemma replace_pair_length (c d : Z) (n : nat) (t : str) :
  (length t <= n)%nat ->
  (length (replace [c; c] [d] t) <= length t)%nat
  /\ (occurs [c; c] t -> (length (replace [c; c] [d] t) < length t)%nat).
Proof.
  revert t. induction n as [|n IH]; intros t Hlen.
  { destruct t; [|cbn in Hlen; lia]. split; [reflexivity|].
    intros ([|? ?] & ? & ?); discriminate. }
  destruct t as [|x [|y r]].
  - split; [reflexivity|]. intros ([|? ?] & ? & ?); discriminate.
  - rewrite replace_cons. cbn [starts_with]. rewrite andb_false_r.
    split; [reflexivity|].
    intros ([|? [|? ?]] & ? & ?); discriminate.
  - rewrite replace_cons. cbn [starts_with length drop]. rewrite andb_true_r.
    destruct ((c =? x) && (c =? y)) eqn:E.
    + destruct (IH r) as [I1 _]; [cbn in Hlen; lia|].
      cbn [app length]. rewrite drop_0. split; [lia|]. intros _. lia.
    + destruct (IH (y :: r)) as [I1 I2]; [cbn in *; lia|].
      cbn [length] in *. split; [lia|].
      intros [[-> [r' [= -> _]]]|Ho]%occurs_pair_cons.
      * now rewrite Z.eqb_refl in E.
      * specialize (I2 Ho). lia.
Qed.

Lemma drop_while_length (p : Z -> bool) (s : str) :
  (length (drop_while p s) <= length s)%nat.
Proof.
  induction s as [|c s IH]; cbn; [lia|]. destruct (p c); cbn; lia.
Qed.

(** X7.  The start-up rewriting leaves a stored path as it is exactly when
    the path has no backslash.  The file-serving normalisation leaves a
    path as it is exactly when the path has no backslash, no doubled slash
    and no leading slash (so it never removes "." or ".." components), and
    neither of them ever makes a path longer. *)
Theorem normalizers_fixed_points (s : str) :
  (heal_path s = s <-> BACKSLASH ∉ s)
  /\ (serve_path s = s <->
      (BACKSLASH ∉ s) /\ ~ occurs [SLASH; SLASH] s
      /\ forall r, s <> SLASH :: r)
  /\ (length (heal_path s) <= length s)%nat
  /\ (length (serve_path s) <= length s)%nat.
Proof.
  assert (Hheal : (length (heal_path s) <= length s)%nat).
  { unfold heal_path. rewrite replace_char, length_map.
    apply (replace_pair_length BACKSLASH SLASH (length s) s). reflexivity. }
  assert (Hrep : forall t,
             (length (replace [SLASH; SLASH] [SLASH] t) <= length t)%nat
             /\ (occurs [SLASH; SLASH] t ->
                 (length (replace [SLASH; SLASH] [SLASH] t) < length t)%nat)).
  { intros t. apply (replace_pair_length SLASH SLASH (length t) t). reflexivity. }
  assert (Hserve : (length (serve_path s) <= length s)%nat).
  { unfold serve_path, lstrip_by.
    etransitivity; [apply drop_while_length|].
    etransitivity; [apply Hrep|]. now rewrite replace_char, length_map. }
  split; [|split; [|split; assumption]].
  - split; [|apply heal_path_without_backslash].
    intros E. rewrite <- E. apply heal_path_no_backslash.
  - split.
    + intros E. split; [rewrite <- E; apply serve_path_no_backslash|].
      split; [|intros r Hr; rewrite Hr in E; now apply serve_path_no_leading_slash in E].
      intros Ho.
      assert (Hb : BACKSLASH ∉ s) by (rewrite <- E; apply serve_path_no_backslash).
      assert (L : (length (serve_path s) < length s)%nat).
      { unfold serve_path, lstrip_by.
        eapply Nat.le_lt_trans; [apply drop_while_length|].
        rewrite replace_char. fold to_slash. rewrite to_slash_map_id by exact Hb.
        now apply Hrep. }
      rewrite E in L. lia.
    + intros (Hb & Hd & Hl). now apply serve_path_fixed.
Qed.

Lemma normalizers_fixed_points_witness :
  serve_path (lit "1/1/Physics/../../x.pdf") = lit "1/1/Physics/../../x.pdf".
Proof.
  apply (proj1 (proj2 (normalizers_fixed_points
                         (lit "1/1/Physics/../../x.pdf")))).
  split; [|split].
  - intros Hin. apply list_elem_of_In in Hin. cbn in Hin.
    repeat (destruct Hin as [Hin|Hin]; [discriminate|]). exact Hin.
  - intros Ho.
    pose proof (proj2 (replace_pair_length SLASH SLASH _ _ (Nat.le_refl _)) Ho) as L.
    vm_compute in L. lia.
  - intros r Hr. discriminate.
Defined.

(** ** The start-up pass as a whole *)

Lemma heal_record_changed (p : Paper.t) : snd (heal_record p) = has_backslash p.
Proof.
  unfold heal_record, has_backslash.
  destruct (Paper.stored_path p) as [sp|]; [|reflexivity].
  destruct (decide (BACKSLASH ∈ sp)) as [Hin|Hout].
  - rewrite (bool_decide_eq_true_2 _ Hin), bool_decide_eq_true_2; [reflexivity|].
    intros E. rewrite <- E in Hin. now apply heal_path_no_backslash in Hin.
  - rewrite (bool_decide_eq_false_2 _ Hout), bool_decide_eq_false_2; [reflexivity|].
    intros E. apply E. now apply heal_path_without_backslash.
Qed.

Lemma heal_record_same (p : Paper.t) : same_but_path p (fst (heal_record p)).
Proof.
  unfold heal_record, same_but_path.
  destruct (Paper.stored_path p); [destruct (bool_decide _)|]; cbn;
    repeat apply conj; reflexivity.
Qed.

Lemma heal_record_count (l : list Paper.t) :
  length (List.filter snd (map heal_record l))
  = length (List.filter has_backslash l).
Proof.
  induction l as [|p l IH]; [reflexivity|]. cbn [map List.filter].
  rewrite heal_record_changed. destruct (has_backslash p); cbn; now rewrite IH.
Qed.

Lemma heal_record_same_all (l : list Paper.t) :
  Forall2 same_but_path l (map (fun p => fst (heal_record p)) l).
Proof.
  induction l as [|p l IH]; constructor; [apply heal_record_same | exact IH].
Qed.

(** X8.  The start-up pass reports the number of records whose stored
    path holds a backslash; it saves the collection once if that number is
    not zero and not at all otherwise; it keeps the number and order of the
    records and every field other than the stored path, and touches no
    file. *)
Theorem normalize_data_paths_counts (w : World) :
  let w' := fst (normalize_data_paths w) in
  let changed := snd (normalize_data_paths w) in
  changed = Z.of_nat (length (List.filter has_backslash (store w)))
  /\ Forall2 same_but_path (store w) (store w')
  /\ disk w' = disk w
  /\ (changed = 0 -> store w' = store w /\ log w' = log w ++ [EvLoad])
  /\ (changed <> 0 -> log w' = log w ++ [EvLoad; EvSave (store w')]).
Proof.
  cbn zeta. pose proof (normalize_data_paths_store w) as Hs.
  split; [|split; [rewrite Hs; apply heal_record_same_all|]].
  { unfold normalize_data_paths, load_data. cbn zeta.
    rewrite heal_record_count. now destruct (_ =? 0). }
  unfold normalize_data_paths, load_data in *. cbn zeta in *.
  rewrite heal_record_count in *.
  destruct (Z.of_nat (length (List.filter has_backslash (store w))) =? 0) eqn:Z0;
    cbn [fst snd store disk log save_data] in *.
  - apply Z.eqb_eq in Z0. split; [reflexivity|]. split; [|lia].
    intros _. split; reflexivity.
  - apply Z.eqb_neq in Z0. split; [reflexivity|]. split; [lia|].
    intros _. now rewrite <- app_assoc.
Qed.

(** ** The display string of parse_exam_year parses again *)

Lemma py_str_four_digits (n : Z) :
  1000 <= n <= 9999 -> length (py_str n) = 4%nat.
Proof.
  intros Hn. unfold py_str. replace (n <? 0) with false by lia.
  assert (Hl : 9 <= Z.log2 n).
  { change 9 with (Z.log2 1000). apply Z.log2_le_mono. lia. }
  destruct (Z.to_nat (Z.log2 n)) as [|[|[|f]]] eqn:F; try (exfalso; lia).
  cbn [digits_of].
  assert (Hdiv : forall a, a = 10 * (a / 10) + a mod 10 /\ 0 <= a mod 10 < 10).
  { intros a. split; [apply Z.div_mod; lia | apply Z.mod_pos_bound; lia]. }
  assert (H1 : 100 <= n / 10 <= 999) by (pose proof (Hdiv n); lia).
  assert (H2 : 10 <= n / 10 / 10 <= 99) by (pose proof (Hdiv (n / 10)); lia).
  assert (H3 : 1 <= n / 10 / 10 / 10 <= 9)
    by (pose proof (Hdiv (n / 10 / 10)); lia).
  replace (n <? 10) with false by lia.
  replace (n / 10 <? 10) with false by lia.
  replace (n / 10 / 10 <? 10) with false by lia.
  replace (n / 10 / 10 / 10 <? 10) with true by lia.
  reflexivity.
Qed.

Lemma fold_decimal_bound (s : str) (a : Z) :
  0 <= a ->
  fold_left (fun acc c => acc * 10 + default 0 (py_decimal c)) s a
  <= (a + 1) * 10 ^ Z.of_nat (length s) - 1.
Proof.
  revert a. induction s as [|c s IH]; intros a Ha.
  - cbn. lia.
  - cbn [fold_left length]. rewrite Nat2Z.inj_succ, Z.pow_succ_r by lia.
    assert (Hv : 0 <= default 0 (py_decimal c) <= 9).
    { destruct (py_decimal c) as [v|] eqn:E; cbn; [|lia].
      now apply py_decimal_range in E. }
    etransitivity; [apply IH; lia|].
    assert (0 < 10 ^ Z.of_nat (length s)) by (apply Z.pow_pos_nonneg; lia).
    nia.
Qed.

Lemma decimal_runs_kept :
  forallb (fun z => forallb (fun k => cleaning_keeps (z + Z.of_nat k)) (seq 0 10))
    decimal_zeros = true.
Proof. vm_compute. reflexivity. Qed.

Lemma is_decimal_kept (c : Z) : is_decimal c = true -> cleaning_keeps c = true.
Proof.
  unfold is_decimal. destruct (py_decimal c) as [v|] eqn:E; [|discriminate].
  intros _. apply py_decimal_run in E as (z & Hin & Hc & ->).
  pose proof decimal_runs_kept as H.
  rewrite forallb_forall in H. specialize (H z Hin).
  rewrite forallb_forall in H. specialize (H (Z.to_nat (c - z))).
  replace (z + Z.of_nat (Z.to_nat (c - z))) with c in H by lia.
  apply H. apply in_seq. lia.
Qed.

Lemma clean_exam_year_kept (s : str) :
  Forall (fun c => cleaning_keeps c = true) s -> clean_exam_year (Some s) = s.
Proof.
  intros H. rewrite clean_exam_year_normalized. unfold normalized.
  cbn [default from_option]. unfold id, strip. rewrite strip_by_none.
  2:{ eapply Forall_impl; [exact H|]. intros c Hc. unfold cleaning_keeps in Hc.
      destruct (py_isspace c); [discriminate | reflexivity]. }
  induction H as [|c s Hc Hs IH]; [reflexivity|]. cbn [map List.filter].
  unfold cleaning_keeps in Hc.
  apply andb_true_iff in Hc as [[Hsp Hen]%andb_true_iff Hem].
  apply negb_true_iff in Hen, Hem.
  replace (dash_to_hyphen c) with c
    by (unfold dash_to_hyphen; rewrite Hen, Hem; reflexivity).
  assert (E : (c =? SPACE) = false).
  { apply Z.eqb_neq. intros ->. discriminate. }
  rewrite E. cbn [negb]. now rewrite IH.
Qed.

Lemma parse_exam_year_display (value : option str) (start : Z) (display : str) :
  parse_exam_year value = Ok (Some start, Some display) ->
  exists g1 g2,
    year_range (clean_exam_year value) g1 g2
    /\ start = decimal_value g1
    /\ display = py_str start ++ [HYPHEN] ++ py_str (end_year start g2).
Proof.
  intros Hp.
  destruct (re_fullmatch re_year (clean_exam_year value)) eqn:Y.
  { apply re_year_spec in Y. rewrite parse_exam_year_bare in Hp by exact Y.
    discriminate. }
  destruct (re_fullmatch re_range (clean_exam_year value)) eqn:R.
  - apply re_range_spec in R as (g1 & g2 & R).
    rewrite (parse_exam_year_range _ g1 g2) in Hp by exact R.
    injection Hp as <- <-. now exists g1, g2.
  - unfold parse_exam_year in Hp. cbn zeta in Hp. rewrite Y, R in Hp.
    discriminate.
Qed.

(** X9.  When the parser returns a display range for a start year between
    1000 and 9998, that display string is itself accepted by the parser and
    gives the same start year and the same display: the academic year
    stored in a record can be typed back into the form unchanged. *)
Theorem parse_exam_year_display_reparses (value : option str) (start : Z)
    (display : str) :
  parse_exam_year value = Ok (Some start, Some display) ->
  1000 <= start <= 9998 ->
  parse_exam_year (Some display) = Ok (Some start, Some display).
Proof.
  intros Hp Hs.
  destruct (parse_exam_year_display value start display Hp)
    as (g1 & g2 & (_ & _ & _ & L2 & D2) & E1 & ->).
  set (e := end_year start g2).
  assert (He : start <= e <= 9999).
  { unfold e, end_year.
    pose proof (decimal_value_nonneg g2) as P.
    pose proof (fold_decimal_bound g2 0 ltac:(lia)) as B.
    fold (decimal_value g2) in B.
    assert (Hc : 0 <= start / 100 <= 99).
    { split; [apply Z.div_pos; lia|].
      assert (start / 100 < 100) by (apply Z.div_lt_upper_bound; lia). lia. }
    assert (Hm : start / 100 * 100 <= start).
    { pose proof (Z.div_mod start 100 ltac:(lia)).
      pose proof (Z.mod_pos_bound start 100 ltac:(lia)). lia. }
    destruct L2 as [L2|L2]; rewrite L2 in *; cbn [Nat.eqb] in *;
      match goal with |- context [?a <? start] => destruct (Z.ltb_spec a start) end;
      cbn in B; lia. }
  destruct (py_str_decimal start ltac:(lia)) as (Ds & Ns & Vs).
  destruct (py_str_decimal e ltac:(lia)) as (De & Ne & Ve).
  assert (Ls : length (py_str start) = 4%nat) by (apply py_str_four_digits; lia).
  assert (Le : length (py_str e) = 4%nat) by (apply py_str_four_digits; lia).
  assert (Hclean : clean_exam_year (Some (py_str start ++ [HYPHEN] ++ py_str e))
                   = py_str start ++ [HYPHEN] ++ py_str e).
  { apply clean_exam_year_kept. apply Forall_app. split.
    - eapply Forall_impl; [exact Ds|]. apply is_decimal_kept.
    - constructor; [reflexivity|].
      eapply Forall_impl; [exact De|]. apply is_decimal_kept. }
  rewrite (parse_exam_year_range _ (py_str start) (py_str e)).
  2:{ rewrite Hclean. unfold year_range. auto 10. }
  rewrite Vs. unfold end_year at 1. rewrite Le, Ve. cbn [Nat.eqb].
  replace (e <? start) with false by lia. reflexivity.
Qed.

Lemma parse_exam_year_display_reparses_witness :
  parse_exam_year (Some (lit "2024-2025"))
  = Ok (Some 2024, Some (lit "2024-2025")).
Proof.
  apply (parse_exam_year_display_reparses (Some (lit "2024 - 25"))).
  - vm_compute. reflexivity.
  - lia.
Defined.

(** ** What an upload does to the files *)


Section UploadDisk.
Context `{Runtime}.
Variable m : Meta.


End UploadDisk.



(** ** Well-formed records *)

Lemma decimal_value_four (s : str) :
  length s = 4%nat -> 0 <= decimal_value s <= 9999.
Proof.
  intros L. split; [apply decimal_value_nonneg|].
  pose proof (fold_decimal_bound s 0 ltac:(lia)) as B.
  rewrite L in B. exact B.
Qed.

Lemma parse_exam_year_start_range (value : option str) (y : Z)
    (a : option str) :
  parse_exam_year value = Ok (Some y, a) -> 0 <= y <= 9999.
Proof.
  intros Hp.
  destruct (re_fullmatch re_year (clean_exam_year value)) eqn:Y.
  { apply re_year_spec in Y. rewrite parse_exam_year_bare in Hp by exact Y.
    injection Hp as <- _. apply decimal_value_four, Y. }
  destruct (re_fullmatch re_range (clean_exam_year value)) eqn:R.
  - apply re_range_spec in R as (g1 & g2 & R).
    rewrite (parse_exam_year_range _ g1 g2) in Hp by exact R.
    injection Hp as <- _. apply decimal_value_four, R.
  - unfold parse_exam_year in Hp. cbn zeta in Hp. rewrite Y, R in Hp.
    discriminate.
Qed.

Lemma validated_record_ok `{Runtime} (form : Form) (m : Meta)
    (data : list Paper.t) (f : FileStorage) (at_ : str) :
  validated form m -> record_ok (record_for m data f at_).
Proof.
  intros (_ & Vy & _ & Vs & _ & Vt & _ & Vj & Vp & Vp').
  unfold record_ok, record_for. cbn.
  apply list_elem_of_In in Vy, Vt. cbn in Vy, Vt.
  apply parse_exam_year_start_range in Vp.
  repeat apply conj; try lia; try assumption.
  - destruct Vt as [<-|[<-|[]]]; auto.
Qed.

Section RecordInvariant.
Context `{Runtime}.

Lemma upload_files_record_ok (form : Form) (m : Meta)
  (fs : list FileStorage) (b : Batch) :
validated form m -> Forall record_ok (b_data b) ->
Forall record_ok (b_data (upload_files m b fs)).
Proof.
intros V. revert b. induction fs as [|f fs IH]; intros b Hb; [exact Hb|].
apply (IH (upload_file m b f)).
destruct (accepts m b f) eqn:A.
- destruct (upload_file_saves m b f A) as ([at_ ->] & _).
  apply Forall_app. split; [exact Hb|].
  constructor; [|constructor]. now apply (validated_record_ok form).
- destruct (upload_file_skips m b f A) as (-> & _). exact Hb.
Qed.

Lemma handle_record_ok (r : request) (w : World) :
Forall record_ok (store w) -> Forall record_ok (store (fst (handle r w))).
Proof.
intros Hw. destruct r as [|args|a meth form files|a paper_id next|relpath];
  cbn [handle].
- pose proof (normalize_data_paths_store w) as S.
  destruct (normalize_data_paths w) as [w1 changed]. cbn [fst] in *.
  rewrite S. apply List.Forall_forall.
  intros q (p & <- & Hp)%in_map_iff.
  rewrite List.Forall_forall in Hw. specialize (Hw p Hp).
  destruct (heal_record_same p) as (_ & E1 & E2 & E3 & E4 & E5 & _).
  unfold record_ok in *. now rewrite <- E1, <- E2, <- E3, <- E4, <- E5.
- exact Hw.
- destruct (upload_cases a meth form files w)
    as [E|(-> & -> & Hk & m & V)]; [now rewrite E|].
  rewrite (upload_accepts form m files w V Hk). cbn [fst save_data store].
  now apply (upload_files_record_ok form).
- destruct a; [|exact Hw].
  destruct (List.find (fun p => Paper.id p =? paper_id) (store w))
    as [p|] eqn:F.
  + apply find_some in F as [Hp E%Z.eqb_eq].
    destruct (delete_paper_found paper_id next w p Hp E)
      as (to & evs & fl & d & -> & _).
    cbn [fst store]. unfold without.
    apply List.Forall_forall. intros q [Hq _]%filter_In.
    rewrite List.Forall_forall in Hw. now apply Hw.
  + destruct (delete_paper_not_found paper_id next w) as [to ->]; [|exact Hw].
    intros p Hp. eapply find_none in F; [|exact Hp]. cbn in F.
    now apply Z.eqb_neq.
- exact Hw.
Qed.
End RecordInvariant.

(** X11.  If every record of the collection has a year in 1..4, a
    semester in 1..8, exam type Mid or End, a non-empty subject and an exam
    year in 2000..9999, this is still so after any sequence of requests:
    upload only appends records that passed the checks, the start-up pass
    only rewrites stored paths and deletion only removes records. *)
Theorem records_stay_well_formed `{Runtime} (rs : list request) (w : World) :
  Forall record_ok (store w) -> Forall record_ok (store (run rs w)).
Proof.
  revert w. induction rs as [|r rs IH]; intros w Hw; [exact Hw|].
  apply (IH (fst (handle r w))). now apply handle_record_ok.
Qed.

Lemma records_stay_well_formed_witness :
  Forall record_ok
    (store (@run example_runtime
              [Upload true POST example_form
                 [mkFile (lit "a.pdf") [1]; mkFile (lit "b.txt") [2]];
               Startup; DeletePaper true 3 None]
              (example_world [3; 7]))).
Proof.
  apply (@records_stay_well_formed example_runtime).
  repeat constructor; cbn; try lia; try discriminate; auto.
Defined.

(** ** The response of an upload *)


Section UploadResponse.
Context `{Runtime}.


End UploadResponse.


(** ** Identifiers within a batch *)

Lemma next_id_append (data : list Paper.t) (r : Paper.t) :
  Paper.id r = next_id data -> next_id (data ++ [r]) = next_id data + 1.
Proof.
  intros Hr. unfold next_id at 1. f_equal. rewrite <- Hr.
  apply py_max_spec.
  - destruct data; discriminate.
  - rewrite map_app. cbn [map]. split.
    + apply in_or_app. right. now left.
    + apply Forall_app. split; [|constructor; [lia | constructor]].
      apply List.Forall_forall. intros i (p & <- & Hp)%in_map_iff.
      pose proof (next_id_above data p Hp). lia.
Qed.

Section BatchIds.
Context `{Runtime}.
Variable m : Meta.

Lemma upload_files_consecutive (fs : list FileStorage) (b : Batch) :
let b' := upload_files m b fs in
exists k : nat,
  saved_count b' = saved_count b + Z.of_nat k
  /\ map Paper.id (b_data b')
     = map Paper.id (b_data b)
       ++ map (fun i => next_id (b_data b) + Z.of_nat i) (seq 0 k).
Proof.
revert b. induction fs as [|f fs IH]; intros b; cbn zeta.
- exists 0%nat. cbn. split; [lia | now rewrite app_nil_r].
- change (upload_files m b (f :: fs))
    with (upload_files m (upload_file m b f) fs).
  destruct (IH (upload_file m b f)) as (k & I1 & I2). cbn zeta in *.
  destruct (accepts m b f) eqn:A.
  + destruct (upload_file_saves m b f A) as ([at_ S1] & _ & _ & S4 & _).
    exists (S k). rewrite I1, I2, S1, S4. split; [lia|].
    rewrite next_id_append by reflexivity.
    rewrite map_app, <- app_assoc. f_equal. cbn [map seq app]. f_equal.
    * cbn. lia.
    * rewrite <- seq_shift, map_map. apply map_ext. intros i. lia.
  + destruct (upload_file_skips m b f A) as (S1 & _ & _ & S4 & _).
    exists k. rewrite I1, I2, S1, S4. split; reflexivity.
Qed.
End BatchIds.

(** X13.  The records a valid batch appends get consecutive ids: if n is
    next_id of the collection before the request and k files are saved, the
    new records carry n, n+1, ..., n+k-1 in the order of the files, and the
    ids of the earlier records are untouched. *)
Theorem upload_assigns_consecutive_ids `{Runtime} (form : Form) (m : Meta)
    (files : list FileStorage) (w : World) :
  validated form m -> kept files <> [] ->
  let w' := fst (upload true POST form files w) in
  exists k : nat,
    (k <= length (kept files))%nat
    /\ map Paper.id (store w')
       = map Paper.id (store w)
         ++ map (fun i => next_id (store w) + Z.of_nat i) (seq 0 k).
Proof.
  intros V Hk. cbn zeta.
  destruct (upload_world form m files w V Hk) as (W1 & _ & W3 & _).
  cbn zeta in *. rewrite W1.
  destruct (upload_files_consecutive m (kept files) (batch_start m w))
    as (k & K1 & K2).
  destruct (upload_files_counts m (kept files) (batch_start m w))
    as (_ & _ & _ & C4 & _).
  cbn [batch_start b_data saved_count skipped_count] in *.
  exists k. split; [lia | exact K2].
Qed.

Lemma upload_assigns_consecutive_ids_witness :
  exists k : nat,
    (k <= 3)%nat
    /\ map Paper.id
         (store (fst (@upload example_runtime true POST example_form
                        [mkFile (lit "a.pdf") [1]; mkFile (lit "b.txt") [2];
                         mkFile (lit "c.png") [3]] (example_world [3; 7]))))
       = [3; 7] ++ map (fun i => 8 + Z.of_nat i) (seq 0 k).
Proof.
  refine (@upload_assigns_consecutive_ids example_runtime example_form
            (mkMeta 1 1 (lit "Physics") (lit "Mid") 2023 None)
            [mkFile (lit "a.pdf") [1]; mkFile (lit "b.txt") [2];
             mkFile (lit "c.png") [3]] (example_world [3; 7]) _ _).
  - unfold validated. cbn [m_year m_semester m_subject m_exam_type
                              m_exam_year m_academic_year].
    repeat apply conj; try (vm_compute; reflexivity); try lia;
      try discriminate.
    + apply list_elem_of_In. cbn. auto.
    + apply list_elem_of_In. cbn. auto.
  - discriminate.
Defined.

(** ** Deleting *)

(** X14.  Deleting the same id a second time reports "not found" and
    changes nothing more: the collection after two deletions is the
    collection after one; and if the ids are unique and the id exists, one
    deletion removes exactly one record. *)
Theorem delete_paper_twice `{Runtime} (paper_id : Z) (next1 next2 : option str)
    (w : World) :
  let w1 := fst (delete_paper true paper_id next1 w) in
  let w2 := fst (delete_paper true paper_id next2 w1) in
  store w2 = store w1
  /\ disk w2 = disk w1
  /\ (exists to, snd (delete_paper true paper_id next2 w1)
                 = Redirect to [(MsgNotFound, warning)])
  /\ (ids_unique (store w) ->
      (exists p, In p (store w) /\ Paper.id p = paper_id) ->
      S (length (store w1)) = length (store w)).
Proof.
  cbn zeta.
  assert (Hgone : forall p, In p (store (fst (delete_paper true paper_id next1 w)))
                            -> Paper.id p <> paper_id).
  { destruct (List.find (fun p => Paper.id p =? paper_id) (store w))
      as [q|] eqn:F.
    - apply find_some in F as [Hq E%Z.eqb_eq].
      destruct (delete_paper_found paper_id next1 w q Hq E)
        as (to & evs & fl & d & -> & _).
      cbn [fst store]. intros p [_ Hp]%filter_In.
      now apply negb_true_iff, Z.eqb_neq in Hp.
    - assert (Hno : forall p, In p (store w) -> Paper.id p <> paper_id).
      { intros p Hp. eapply find_none in F; [|exact Hp]. cbn in F.
        now apply Z.eqb_neq. }
      destruct (delete_paper_not_found paper_id next1 w Hno) as [to ->].
      exact Hno. }
  destruct (delete_paper_not_found paper_id next2 _ Hgone) as [to E].
  rewrite E. cbn [fst snd store disk].
  split; [reflexivity|]. split; [reflexivity|]. split; [now exists to|].
  intros [Hnd _] (p & Hp & Hid).
  destruct (delete_paper_found paper_id next1 w p Hp Hid)
    as (to' & evs & fl & d & -> & _).
  cbn [fst store]. unfold without. clear E Hgone.
  induction (store w) as [|q l IH]; [destruct Hp|].
  cbn [map] in Hnd. inversion Hnd as [|? ? Hnotin Hnd']; subst.
  cbn [List.filter length].
  destruct (Z.eqb_spec (Paper.id q) (Paper.id p)) as [Eq|Nq]; cbn [negb].
  - f_equal.
    assert (Hall : forall x, In x l -> negb (Paper.id x =? Paper.id p) = true).
    { intros x Hx. apply negb_true_iff, Z.eqb_neq. intros Ex.
      apply Hnotin. rewrite Eq, <- Ex. now apply in_map. }
    clear -Hall. induction l as [|x l IHl]; [reflexivity|].
    cbn [List.filter]. rewrite (Hall x) by now left. cbn [length]. f_equal.
    apply IHl. intros y Hy. apply Hall. now right.
  - cbn [length]. f_equal. destruct Hp as [->|Hp]; [congruence|].
    now apply IH.
Qed.

Lemma delete_paper_twice_witness :
  S (length (store (fst (@delete_paper example_runtime true 7 None
                           (example_world [3; 7])))))
  = length (store (example_world [3; 7])).
Proof.
  apply (@delete_paper_twice example_runtime 7 None None (example_world [3; 7])).
  - split.
    + cbn. constructor; [intros [E|[]]; discriminate|].
      constructor; [intros []|constructor].
    + cbn. repeat constructor.
  - exists (example_paper 7). split; [right; left; reflexivity | reflexivity].
Defined.

(** ** Stability of the listing order *)

Section Stability.
Context {A : Type} (le : A -> A -> bool) (eqv : A -> A -> bool).
Hypothesis eqv_le : forall x a y, eqv x a = true -> eqv x y = true -> le a y = true.

Lemma insert_by_stable (x a : A) (l : list A) :
List.filter (eqv x) (insert_by le a l) = List.filter (eqv x) (a :: l).
Proof.
induction l as [|y l IH]; [reflexivity|]. cbn [insert_by].
destruct (le a y) eqn:E; [reflexivity|].
cbn [List.filter] in *. rewrite IH.
destruct (eqv x a) eqn:Ea, (eqv x y) eqn:Ey; try reflexivity.
rewrite (eqv_le x a y Ea Ey) in E. discriminate.
Qed.

Lemma sort_by_stable (x : A) (l : list A) :
List.filter (eqv x) (sort_by le l) = List.filter (eqv x) l.
Proof.
induction l as [|a l IH]; [reflexivity|]. cbn [sort_by foldr].
fold (sort_by le l). rewrite insert_by_stable. cbn [List.filter].
now rewrite IH.
Qed.
End Stability.

(** X15.  The sort of the listing is stable: records with the same exam
    year, subject and exam type appear in the listing in the order they
    have in the collection. *)
Theorem papers_list_order_is_stable `{Runtime} (args : ListArgs) (w : World)
    (x : Paper.t) :
  let year := int_or_none (strip (py_or (arg_year args) [])) in
  let semester := int_or_none (strip (py_or (arg_semester args) [])) in
  let subject := strip (py_or (arg_subject args) []) in
  let exam_type := strip (py_or (arg_exam_type args) []) in
  exists ctx,
    snd (papers_list args w) = RenderPapers ctx
    /\ List.filter (same_key x) (papers ctx)
       = List.filter (same_key x)
           (List.filter (passes year semester subject exam_type) (store w)).
Proof.
  cbn zeta. eexists. split; [reflexivity|]. cbn [papers].
  apply sort_by_stable. intros k a y Ha Hy.
  unfold same_key in *. apply bool_decide_eq_true in Ha, Hy.
  unfold key_le. rewrite <- Ha, Hy.
  now rewrite (cmp_refl _ key_total_cmp).
Qed.

(** ** Upload followed by listing, upload followed by deletion *)

Lemma strip_by_idempotent (p : Z -> bool) (s : str) :
  strip_by p (strip_by p s) = strip_by p s.
Proof.
  unfold strip_by, rstrip_by, lstrip_by.
  remember (drop_while p s) as u eqn:Eu.
  remember (drop_while p (rev u)) as v eqn:Ev.
  assert (Hv : drop_while p v = v).
  { apply drop_while_id. destruct v as [|c v']; [trivial|].
    now apply (drop_while_head p (rev u) c v'). }
  assert (Hl : drop_while p (rev v) = rev v).
  { apply drop_while_id. destruct (rev v) as [|c t] eqn:E; [trivial|].
    destruct (drop_while_suffix p (rev u)) as [a Ha]. rewrite <- Ev in Ha.
    assert (Hu : u = rev v ++ rev a).
    { rewrite <- (rev_involutive u), Ha, rev_app_distr. reflexivity. }
    rewrite E in Hu. cbn in Hu.
    apply (drop_while_head p s c (t ++ rev a)). now rewrite <- Eu. }
  rewrite Hl, rev_involutive, Hv. reflexivity.
Qed.











(** ** Stripping before parsing; the last write wins *)

(** X19.  The exam-year parser gives the same answer on a text and on the
    text already stripped of surrounding white space, so upload, which
    strips the form field before calling it, decides as the parser would
    on the raw field; stripping twice is the same as stripping once. *)
Theorem parse_exam_year_after_strip (s : str) :
  strip (strip s) = strip s
  /\ parse_exam_year (Some (strip s)) = parse_exam_year (Some s)
  /\ parse_exam_year (Some (strip (py_or (Some s) []))) = parse_exam_year (Some s).
Proof.
  assert (E : strip (strip s) = strip s) by apply strip_by_idempotent.
  assert (P : parse_exam_year (Some (strip s)) = parse_exam_year (Some s)).
  { unfold parse_exam_year, clean_exam_year. cbn [default from_option].
    unfold id. now rewrite E. }
  split; [exact E|]. split; [exact P|].
  destruct s as [|c s]; [reflexivity | exact P].
Qed.


